(** * FilmEfficientNetEncoder: a shallow embedding of
      [robotic_transformer_pytorch/film_efficientnet/pretrained_efficientnet_encoder.py]

    The encoder canonicalises an image tensor (batch dimension, channel
    layout, value range), runs the pretrained backbone, optionally projects
    and FiLM-conditions the features, optionally average-pools them and
    flattens the result.

    Modelling choices.
    - A tensor is its shape together with its elements in row-major order.
      An element is a finite number, held as a rational; comparisons are
      exact, as they are on floats. The division of line 75 rounds to the
      tensor's dtype: the rounding is a parameter, [fl], and the theorems
      that need anything of it assume that it is monotone and leaves 0 and
      1 alone. Infinities and NaN are not modelled.
    - A Python exception is a value of [exn]; a computation that may raise
      returns [exn + A].
    - The sub-modules an encoder owns (backbone, 1x1 convolution, FiLM
      layer) and the torchvision preprocessing transform are called through
      [call], which records the call in a log, so that "this stage was not
      invoked" is a statement about the log. *)

From Stdlib Require Import String.
From Stdlib Require Import List Arith ZArith QArith Qround Lia Bool.
Import ListNotations.

Local Open Scope nat_scope.

(* ================================================================= *)
(** ** Tensors *)

Record Tensor : Type := mkTensor {
  shape : list nat;
  data : list Q
}.

(** Number of elements a shape holds. *)
Definition numel (s : list nat) : nat := fold_right Nat.mul 1 s.

(** A tensor is well formed when it holds as many elements as its shape says;
    every tensor torch builds is. *)
Definition wf (t : Tensor) : Prop := length (data t) = numel (shape t).

(** [len(t.shape)] *)
Definition rank (t : Tensor) : nat := length (shape t).

(** Row-major offset of the index [b, i, j, k] in a tensor of shape
    [_, d1, d2, d3]. *)
Definition offset4 (d1 d2 d3 : nat) (b i j k : nat) : nat :=
  ((b * d1 + i) * d2 + j) * d3 + k.

(** [t[b, i, j, k]] for a rank-4 tensor. *)
Definition get4 (t : Tensor) (b i j k : nat) : Q :=
  match shape t with
  | [_; d1; d2; d3] => nth (offset4 d1 d2 d3 b i j k) (data t) 0%Q
  | _ => 0%Q
  end.

(* ================================================================= *)
(** ** Exceptions *)

(** The three [assert] statements of [forward]. *)
Inductive assertion : Type :=
| ContextWithIncludeTop                     (* line 65 *)
| UnexpectedImageShape (s : list nat)       (* line 69 *)
| ValueRange.                               (* line 76 *)

Inductive exn : Type :=
| AssertionError (a : assertion)
| ValueError (msg : String.string)
| TypeError
| IndexError
| RuntimeError.

(** The names the specification gives to these failures. *)
Definition UsageError : exn := AssertionError ContextWithIncludeTop.
Definition ShapeError (s : list nat) : exn := AssertionError (UnexpectedImageShape s).
Definition RangeError : exn := AssertionError ValueRange.
Definition ConfigError (msg : String.string) : exn := ValueError msg.

Definition result (A : Type) : Type := (exn + A)%type.

Definition ok {A : Type} (a : A) : result A := inr a.
Definition raise {A : Type} (e : exn) : result A := inl e.

Definition rbind {A B : Type} (m : result A) (k : A -> result B) : result B :=
  match m with
  | inl e => inl e
  | inr a => k a
  end.

Notation "'let?' x ':=' m 'in' k" := (rbind m (fun x => k))
  (at level 10, x name, m at level 100, k at level 200).

(** [assert c, msg] *)
Definition assert (c : bool) (a : assertion) : result unit :=
  if c then ok tt else raise (AssertionError a).

(* ================================================================= *)
(** ** The torch operations [forward] uses *)

(** [t.unsqueeze(d)] for [d >= 0]: a dimension of size one is inserted at
    position [d]; [d] may be at most the rank. *)
Definition unsqueeze (d : nat) (t : Tensor) : result Tensor :=
  if d <=? rank t
  then ok {| shape := firstn d (shape t) ++ 1 :: skipn d (shape t); data := data t |}
  else raise IndexError.

(** [t.shape[-1]] *)
Definition shape_last (t : Tensor) : result nat :=
  match rev (shape t) with
  | [] => raise IndexError
  | d :: _ => ok d
  end.

(** [t.shape[i]] for [i >= 0]. *)
Definition shape_at (t : Tensor) (i : nat) : result nat :=
  match nth_error (shape t) i with
  | Some d => ok d
  | None => raise IndexError
  end.

(** [t.permute(0, 3, 1, 2)]: the result has shape [B, C, H, W] for an input
    of shape [B, H, W, C] and [out[b, c, h, w] = in[b, h, w, c]]. Four
    dimensions are named, so any other rank is a RuntimeError. *)
Definition permute_0312 (t : Tensor) : result Tensor :=
  match shape t with
  | [B; H; W; C] =>
      ok {| shape := [B; C; H; W];
            data :=
              flat_map (fun b =>
                flat_map (fun c =>
                  flat_map (fun h =>
                    map (fun w => nth (offset4 H W C b h w c) (data t) 0%Q)
                        (seq 0 W))
                    (seq 0 H))
                  (seq 0 C))
                (seq 0 B) |}
  | _ => raise RuntimeError
  end.

Definition Qmaxb (x y : Q) : Q := if Qle_bool x y then y else x.
Definition Qminb (x y : Q) : Q := if Qle_bool x y then x else y.

(** [torch.max(t)]: the largest element; an empty tensor has none. *)
Definition torch_max (t : Tensor) : result Q :=
  match data t with
  | [] => raise RuntimeError
  | x :: xs => ok (fold_left Qmaxb xs x)
  end.

(** [torch.min(t)] *)
Definition torch_min (t : Tensor) : result Q :=
  match data t with
  | [] => raise RuntimeError
  | x :: xs => ok (fold_left Qminb xs x)
  end.

(** The dtype of the tensor a division produces: [fl x] is the value of
    the dtype that stands for the exact result [x]. *)
Class Dtype : Type := { fl : Q -> Q }.

(** What rounding to nearest does whatever the format is: it keeps the
    order, and 0 and 1 are values of the format. *)
Record RoundLaws (D : Dtype) : Prop := {
  fl_mono : forall x y : Q, (x <= y)%Q -> (fl x <= fl y)%Q;
  fl_zero : (fl 0 == 0)%Q;
  fl_one : (fl 1 == 1)%Q
}.

(** [t / c] for a scalar [c]: every quotient is rounded to the dtype. *)
Definition div_scalar {D : Dtype} (t : Tensor) (c : Q) : Tensor :=
  {| shape := shape t; data := map (fun x => fl (x / c)%Q) (data t) |}.

(** [t.flatten(1)]: every dimension from the second on is merged. *)
Definition flatten1 (t : Tensor) : result Tensor :=
  match shape t with
  | d0 :: d1 :: ds => ok {| shape := [d0; numel (d1 :: ds)]; data := data t |}
  | _ => raise IndexError
  end.

Definition Qsum (l : list Q) : Q := fold_right Qplus 0%Q l.

(** The [k]-th block of [m] consecutive elements of [l]. *)
Definition block (l : list Q) (m k : nat) : list Q :=
  map (fun p => nth (k * m + p) l 0%Q) (seq 0 m).

(** [nn.functional.avg_pool2d(t, (t.shape[2], t.shape[3]))]: the kernel
    covers the whole spatial extent, the stride defaults to the kernel, so
    each plane is averaged into one value. The input must be (C, H, W) or
    (B, C, H, W) with C, H and W non-zero; indexing [t.shape[3]] already
    fails on a tensor of rank below four. Sum and quotient are written
    without rounding; over a single position, the only case whose values
    the theorems use, there is none to do. *)
Definition avg_pool2d_full (t : Tensor) : result Tensor :=
  let? kH := shape_at t 2 in
  let? kW := shape_at t 3 in
  match shape t with
  | [B; C; H; W] =>
      if (0 <? C) && (0 <? H) && (0 <? W)
      then ok {| shape := [B; C; 1; 1];
                 data := map (fun k => (Qsum (block (data t) (kH * kW) k)
                                         / inject_Z (Z.of_nat (kH * kW)))%Q)
                             (seq 0 (B * C)) |}
      else raise RuntimeError
  | _ => raise RuntimeError
  end.

(** [nn.Conv2d(in_channels, out_channels, kernel_size=(1, 1), stride=(1, 1),
    padding="same", bias=False)]. [weight o i] is [weight[o, i, 0, 0]]. The
    weighted sums are written without rounding; the theorems use the shape
    of what the convolution returns, not its values. *)
Record Conv2d : Type := mkConv2d {
  in_channels : nat;
  out_channels : nat;
  weight : nat -> nat -> Q
}.

(** One batch entry of a 1x1 convolution: for every output channel [o] and
    position [p], the weighted sum over the input channels. [x0] is the
    offset of the entry in the input. *)
Definition conv1x1_entry (m : Conv2d) (xs : list Q) (C HW x0 : nat) : list Q :=
  flat_map (fun o =>
    map (fun p =>
      Qsum (map (fun i => (weight m o i * nth (x0 + i * HW + p) xs 0)%Q) (seq 0 C)))
      (seq 0 HW))
    (seq 0 (out_channels m)).

(** Calling the convolution: the input is (B, C, H, W) or (C, H, W), its
    channel count must be [in_channels] and its planes must not be empty. *)
Definition conv2d (m : Conv2d) (x : Tensor) : result Tensor :=
  match shape x with
  | [B; C; H; W] =>
      if (C =? in_channels m) && (0 <? H) && (0 <? W)
      then ok {| shape := [B; out_channels m; H; W];
                 data := flat_map (fun b => conv1x1_entry m (data x) C (H * W) (b * (C * (H * W))))
                                  (seq 0 B) |}
      else raise RuntimeError
  | [C; H; W] =>
      if (C =? in_channels m) && (0 <? H) && (0 <? W)
      then ok {| shape := [out_channels m; H; W];
                 data := conv1x1_entry m (data x) C (H * W) 0 |}
      else raise RuntimeError
  | _ => raise RuntimeError
  end.

(* ================================================================= *)
(** ** Calls to sub-modules, with a log *)

(** One entry per call of a stage that is a module of its own. *)
Inductive event : Type :=
| CallPreprocess (image : Tensor)
| CallNet (image : Tensor) (context : option Tensor)
| CallConv1x1 (features : Tensor)
| CallFilmLayer (features context : Tensor).

(** A computation of [forward]: the calls made so far and the outcome. *)
Definition M (A : Type) : Type := (list event * result A)%type.

Definition ret {A : Type} (a : A) : M A := ([], ok a).

Definition lift {A : Type} (r : result A) : M A := ([], r).

Definition call {A : Type} (ev : event) (r : result A) : M A := ([ev], r).

Definition bind {A B : Type} (m : M A) (k : A -> M B) : M B :=
  match snd m with
  | inl e => (fst m, inl e)
  | inr a => (fst m ++ fst (k a), snd (k a))
  end.

Notation "'let*' x ':=' m 'in' k" := (bind m (fun x => k))
  (at level 10, x name, m at level 100, k at level 200).

(** The stages the specification calls the channel projector and the
    conditioner. *)
Definition is_conditioning (ev : event) : bool :=
  match ev with
  | CallConv1x1 _ | CallFilmLayer _ _ => true
  | _ => false
  end.

(* ================================================================= *)
(** ** The encoder *)

(** [FilmConditioning(num_channels)]: the layer and what calling it does. *)
Record FilmConditioning : Type := mkFilmConditioning {
  num_channels : nat;
  film_forward : Tensor -> Tensor -> result Tensor
}.

(** A backbone, called as [net(image, context)]. *)
Definition Backbone : Type := Tensor -> option Tensor -> result Tensor.

Record FilmEfficientNetEncoder : Type := mkEncoder {
  net : Backbone;
  include_top : bool;
  conv1x1 : Conv2d;
  film_layer : FilmConditioning;
  _pooling : bool
}.

(** *** The canonicalisation steps of [forward], lines 66 to 76 *)

(** Lines 66-68: a rank-3 image gets a batch dimension. *)
Definition add_batch_dim (image : Tensor) : result Tensor :=
  if rank image =? 3 then unsqueeze 0 image else ok image.

(** Line 69. *)
Definition check_rank (image : Tensor) : result unit :=
  assert (rank image =? 4) (UnexpectedImageShape (shape image)).

(** Lines 70-72: (B, H, W, C) -> (B, C, H, W) when the last dimension is 3. *)
Definition channel_first (image : Tensor) : result Tensor :=
  let? c := shape_last image in
  if c =? 3 then permute_0312 image else ok image.

(** Lines 73-75: rescale to [0, 1] when the largest element is at least 1. *)
Definition rescale {D : Dtype} (image : Tensor) : result Tensor :=
  let? m := torch_max image in
  if Qle_bool 1 m then ok (div_scalar image 255) else ok image.

(** Line 76; [and] evaluates its right operand only when the left one holds. *)
Definition check_range (image : Tensor) : result unit :=
  let? lo := torch_min image in
  if Qle_bool 0 lo
  then (let? hi := torch_max image in assert (Qle_bool hi 1) ValueRange)
  else assert false ValueRange.

(** Lines 73-76 together. *)
Definition normalize_range {D : Dtype} (image : Tensor) : result Tensor :=
  let? image := rescale image in
  let? _ := check_range image in
  ok image.

(** Lines 66-76 together. *)
Definition canonicalize {D : Dtype} (image : Tensor) : result Tensor :=
  let? image := add_batch_dim image in
  let? _ := check_rank image in
  let? image := channel_first image in
  normalize_range image.

Section Encoder.

Context {D : Dtype}.

(** The collaborators: the backbone factory and the FiLM layer of
    [robotic_transformer_pytorch.film_efficientnet], the transform
    [EfficientNet_B3_Weights.DEFAULT.transforms(antialias=True)] of
    torchvision, and the values [nn.init.kaiming_normal_] draws. *)
Variable filmefficientnet_b3 : bool -> option String.string -> result Backbone.
Variable FilmConditioning_forward : nat -> Tensor -> Tensor -> result Tensor.
Variable preprocess : Tensor -> result Tensor.
Variable kaiming_normal : nat -> nat -> Q.

(** [_MODELS = {"b3": filmefficientnet_b3}] *)
Definition _MODELS : list (String.string * (bool -> option String.string -> result Backbone)) :=
  [("b3"%string, filmefficientnet_b3)].

Fixpoint lookup {V : Type} (k : String.string) (d : list (String.string * V)) : option V :=
  match d with
  | [] => None
  | (k', v) :: d' => if String.eqb k k' then Some v else lookup k d'
  end.

(** [FilmEfficientNetEncoder.__init__]. [kwargs] holds the names of the
    extra keyword arguments, which [nn.Module.__init__] does not accept. *)
Definition __init__ (model_variant : String.string) (weights : option String.string)
    (include_top pooling : bool) (kwargs : list String.string)
    : result FilmEfficientNetEncoder :=
  let? _ := match kwargs with [] => ok tt | _ :: _ => raise TypeError end in
  match lookup model_variant _MODELS with
  | None => raise (ValueError (String.append "Unknown variant " model_variant))
  | Some factory =>
      let? net := factory include_top weights in
      ok {| net := net;
            include_top := include_top;
            conv1x1 := {| in_channels := 1536; out_channels := 512;
                          weight := kaiming_normal |};
            film_layer := {| num_channels := 512;
                             film_forward := FilmConditioning_forward 512 |};
            _pooling := pooling |}
  end.

(** [FilmEfficientNetEncoder.forward] *)
Definition forward (self : FilmEfficientNetEncoder) (image : Tensor)
    (context : option Tensor) : M Tensor :=
  let* _ := lift (if include_top self
                  then assert (match context with None => true | Some _ => false end)
                              ContextWithIncludeTop
                  else ok tt) in
  let* image := lift (canonicalize image) in
  let* image := call (CallPreprocess image) (preprocess image) in
  let* features := call (CallNet image context) (net self image context) in
  let* features := lift (unsqueeze 2 features) in
  let* features := lift (unsqueeze 3 features) in
  let* features :=
    match context with
    | Some c =>
        let* features := call (CallConv1x1 features) (conv2d (conv1x1 self) features) in
        call (CallFilmLayer features c) (film_forward (film_layer self) features c)
    | None => ret features
    end in
  let* features := (if _pooling self then lift (avg_pool2d_full features) else ret features) in
  lift (flatten1 features).

End Encoder.

(* ================================================================= *)
(** ** Vocabulary of the statements *)

(** An element of a canonicalised image: inside [0, 1]. *)
Definition in_unit (x : Q) : Prop := (0 <= x /\ x <= 1)%Q.

(** An element of an image that is normalised and not saturated. *)
Definition below_one (x : Q) : Prop := (0 <= x /\ x < 1)%Q.

Definition is_some {A : Type} (o : option A) : bool :=
  match o with Some _ => true | None => false end.

(** Every call in the log satisfies [P]. *)
Definition log_sat {A : Type} (P : event -> Prop) (m : M A) : Prop :=
  Forall P (fst m).

(** Modelled from the spec: the backbone of
    [robotic_transformer_pytorch.film_efficientnet] is not among the sources.
    It "must return a per-image fixed-width vector", a rank-2 (batch, C)
    tensor; the width is a channel count, so it is not zero. *)
Definition is_summary (feat : Tensor) : Prop :=
  wf feat /\ exists B C, shape feat = [B; C] /\ 0 < C.

Definition backbone_contract (n : Backbone) : Prop :=
  forall image context feat, n image context = ok feat -> is_summary feat.

(** Modelled from the spec: [FilmConditioning] is not among the sources.
    It maps a feature map to a feature map, applying [scale * feature + shift]
    "elementwise per channel": what comes out has the shape of what went in. *)
Definition film_contract (film : Tensor -> Tensor -> result Tensor) : Prop :=
  forall x context y, wf x -> film x context = ok y -> shape y = shape x /\ wf y.

(** Lines 64 to 85 of [forward]: everything up to the feature map that is
    handed to the reduction. *)
Definition feature_map {D : Dtype} (preprocess : Tensor -> result Tensor)
    (self : FilmEfficientNetEncoder) (image : Tensor) (context : option Tensor)
    : M Tensor :=
  let* _ := lift (if include_top self
                  then assert (match context with None => true | Some _ => false end)
                              ContextWithIncludeTop
                  else ok tt) in
  let* image := lift (canonicalize image) in
  let* image := call (CallPreprocess image) (preprocess image) in
  let* features := call (CallNet image context) (net self image context) in
  let* features := lift (unsqueeze 2 features) in
  let* features := lift (unsqueeze 3 features) in
  match context with
  | Some c =>
      let* features := call (CallConv1x1 features) (conv2d (conv1x1 self) features) in
      call (CallFilmLayer features c) (film_forward (film_layer self) features c)
  | None => ret features
  end.

(** Lines 88 to 94 of [forward]. *)
Definition reduce (pooling : bool) (features : Tensor) : M Tensor :=
  let* features := (if pooling then lift (avg_pool2d_full features) else ret features) in
  lift (flatten1 features).

(** Lines 66 to 72 of [forward]: the shape part of canonicalisation. *)
Definition canonical_layout (image : Tensor) : result Tensor :=
  let? image := add_batch_dim image in
  let? _ := check_rank image in
  channel_first image.

(** Two dtypes to run the model on. The first rounds nothing. The second
    rounds to the nearest multiple of [1 / k], halves upwards; with
    [k = 2 ^ 149] its values near zero are the subnormal numbers of
    binary32. *)
#[global] Instance exact_arithmetic : Dtype := {| fl := fun x => x |}.

Definition round_to_grid (k : positive) (x : Q) : Q :=
  (inject_Z (Qfloor (x * inject_Z (Zpos k) + (1 # 2))) / inject_Z (Zpos k))%Q.

Definition subnormal_grid : Dtype := {| fl := round_to_grid (2 ^ 149) |}.

(** A pixel value the range steps accept: inside [0, 255]. *)
Definition in_byte_range (x : Q) : Prop := (0 <= x /\ x <= 255)%Q.

(** The check of lines 64-65 passes: no context, or no [include_top]. *)
Definition check_passes (self : FilmEfficientNetEncoder) (context : option Tensor) : Prop :=
  include_top self && is_some context = false.

(** Lines 82 to 94 of [forward]: what happens to the backbone's output. *)
Definition after_backbone (self : FilmEfficientNetEncoder) (context : option Tensor)
    (features : Tensor) : M Tensor :=
  let* features := lift (unsqueeze 2 features) in
  let* features := lift (unsqueeze 3 features) in
  let* features :=
    match context with
    | Some c =>
        let* features := call (CallConv1x1 features) (conv2d (conv1x1 self) features) in
        call (CallFilmLayer features c) (film_forward (film_layer self) features c)
    | None => ret features
    end in
  let* features := (if _pooling self then lift (avg_pool2d_full features) else ret features) in
  lift (flatten1 features).

(* ================================================================= *)
(** ** Concrete runs *)

Module Examples.

(** A channel-last 1x2x2x3 image with raw pixel values. *)
Definition raw_nhwc : Tensor :=
  {| shape := [1; 2; 2; 3];
     data := [0; 51; 102;  153; 204; 255;  10; 20; 30;  40; 50; 60]%Q |}.

(** A channel-first 1x3x2x2 image with values in [0, 1], one of them 1. *)
Definition white_nchw : Tensor :=
  {| shape := [1; 3; 2; 2];
     data := [0; 1#2; 1#4; 1;  1#8; 1#2; 0; 1#2;  1#4; 1#4; 1#2; 0]%Q |}.

(** A channel-first 1x3x2x3 image: its width is 3. *)
Definition narrow_nchw : Tensor :=
  {| shape := [1; 3; 2; 3];
     data := map (fun n => inject_Z (Z.of_nat n) / 100)%Q (seq 0 18) |}.

(** [raw_nhwc] with its channels moved to the front. *)
Definition raw_chw : Tensor :=
  {| shape := [1; 3; 2; 2];
     data := [0; 153; 10; 40;  51; 204; 20; 50;  102; 255; 30; 60]%Q |}.

Definition toy_context : Tensor := {| shape := [1; 2]; data := [1; 2]%Q |}.

(** A backbone that returns a (B, width) summary made of the first
    elements of the image, and a FiLM layer that doubles. *)
Definition toy_net (width : nat) : Backbone :=
  fun image _ =>
    match shape image with
    | B :: _ => ok {| shape := [B; width];
                      data := map (fun k => nth k (data image) 0%Q) (seq 0 (B * width)) |}
    | [] => raise RuntimeError
    end.

Definition toy_factory (width : nat) (include_top : bool) (weights : option string)
    : result Backbone :=
  ok (toy_net width).

Definition toy_film (n : nat) (x ctx : Tensor) : result Tensor :=
  ok {| shape := shape x; data := map (fun v => (2 * v)%Q) (data x) |}.

Definition toy_preprocess (image : Tensor) : result Tensor := ok image.

Definition toy_weight (o i : nat) : Q := inject_Z (Z.of_nat (o + i)).

(** What [__init__] builds from these. *)
Definition toy_encoder (width : nat) (include_top pooling : bool)
    : FilmEfficientNetEncoder :=
  {| net := toy_net width;
     include_top := include_top;
     conv1x1 := {| in_channels := 1536; out_channels := 512; weight := toy_weight |};
     film_layer := {| num_channels := 512; film_forward := toy_film 512 |};
     _pooling := pooling |}.

(** [raw_nhwc] as canonicalisation returns it. *)
Definition canonical_raw : Tensor := div_scalar raw_chw 255.

(** What [toy_net width] returns on [canonical_raw]. *)
Definition toy_summary (width : nat) : Tensor :=
  {| shape := [1; width];
     data := map (fun k => nth k (data canonical_raw) 0%Q) (seq 0 (1 * width)) |}.

(** Two backbones that break the (B, C) convention: one returns a vector,
    one returns the image it is given. *)
Definition vector_net : Backbone :=
  fun image _ => ok {| shape := [numel (shape image)]; data := data image |}.

Definition identity_net : Backbone := fun image _ => ok image.

Definition encoder_with (n : Backbone) (include_top pooling : bool)
    : FilmEfficientNetEncoder :=
  {| net := n;
     include_top := include_top;
     conv1x1 := {| in_channels := 1536; out_channels := 512; weight := toy_weight |};
     film_layer := {| num_channels := 512; film_forward := toy_film 512 |};
     _pooling := pooling |}.

(** A rank-3 channel-last 1x2x3 image with values in [0, 1). *)
Definition unit_hwc : Tensor :=
  {| shape := [1; 2; 3];
     data := [1 # 2; 1 # 4; 3 # 4;  1 # 8; 0; 1 # 3]%Q |}.

End Examples.

(* ================================================================= *)
(** ** Properties of the value-range steps (lines 73 to 76) *)

Lemma Qmaxb_cases (x y : Q) :
  (Qmaxb x y = x \/ Qmaxb x y = y) /\ (x <= Qmaxb x y)%Q /\ (y <= Qmaxb x y)%Q.
Proof.
  unfold Qmaxb. destruct (Qle_bool x y) eqn:E.
  - apply Qle_bool_iff in E. repeat split; auto using Qle_refl.
  - repeat split; auto using Qle_refl.
    destruct (Qlt_le_dec y x) as [L | L].
    + now apply Qlt_le_weak.
    + apply Qle_bool_iff in L. congruence.
Qed.

Lemma Qminb_cases (x y : Q) :
  (Qminb x y = x \/ Qminb x y = y) /\ (Qminb x y <= x)%Q /\ (Qminb x y <= y)%Q.
Proof.
  unfold Qminb. destruct (Qle_bool x y) eqn:E.
  - apply Qle_bool_iff in E. repeat split; auto using Qle_refl.
  - repeat split; auto using Qle_refl.
    destruct (Qlt_le_dec y x) as [L | L].
    + now apply Qlt_le_weak.
    + apply Qle_bool_iff in L. congruence.
Qed.

(** The fold behind [torch.max] returns an element that bounds all others. *)
Lemma fold_max_spec (xs : list Q) : forall x,
  In (fold_left Qmaxb xs x) (x :: xs) /\
  Forall (fun y => (y <= fold_left Qmaxb xs x)%Q) (x :: xs).
Proof.
  induction xs as [| a xs IH]; intros x; simpl.
  - split; [now left | constructor; [apply Qle_refl | constructor]].
  - destruct (IH (Qmaxb x a)) as [Hin Hall].
    destruct (Qmaxb_cases x a) as [Hc [Hx Ha]].
    inversion Hall as [| ? ? Hm Hrest]; subst.
    split.
    + destruct Hin as [Hin | Hin].
      * destruct Hc as [Hc | Hc]; [left | right; left]; rewrite <- Hin; auto.
      * right; right; exact Hin.
    + constructor; [eapply Qle_trans; eauto |].
      constructor; [eapply Qle_trans; eauto | assumption].
Qed.

Lemma fold_min_spec (xs : list Q) : forall x,
  In (fold_left Qminb xs x) (x :: xs) /\
  Forall (fun y => (fold_left Qminb xs x <= y)%Q) (x :: xs).
Proof.
  induction xs as [| a xs IH]; intros x; simpl.
  - split; [now left | constructor; [apply Qle_refl | constructor]].
  - destruct (IH (Qminb x a)) as [Hin Hall].
    destruct (Qminb_cases x a) as [Hc [Hx Ha]].
    inversion Hall as [| ? ? Hm Hrest]; subst.
    split.
    + destruct Hin as [Hin | Hin].
      * destruct Hc as [Hc | Hc]; [left | right; left]; rewrite <- Hin; auto.
      * right; right; exact Hin.
    + constructor; [eapply Qle_trans; eauto |].
      constructor; [eapply Qle_trans; eauto | assumption].
Qed.

Lemma torch_max_spec (t : Tensor) :
  data t <> [] ->
  exists m, torch_max t = ok m /\ In m (data t) /\ Forall (fun y => (y <= m)%Q) (data t).
Proof.
  unfold torch_max. destruct (data t) as [| x xs]; [congruence | intros _].
  exists (fold_left Qmaxb xs x). split; [reflexivity | apply fold_max_spec].
Qed.

Lemma torch_min_spec (t : Tensor) :
  data t <> [] ->
  exists m, torch_min t = ok m /\ In m (data t) /\ Forall (fun y => (m <= y)%Q) (data t).
Proof.
  unfold torch_min. destruct (data t) as [| x xs]; [congruence | intros _].
  exists (fold_left Qminb xs x). split; [reflexivity | apply fold_min_spec].
Qed.

(** The assertion of line 76 passes exactly on the non-empty tensors whose
    elements all lie in [0, 1], and fails with the range assertion on the
    other non-empty ones. *)
Lemma check_range_spec (t : Tensor) :
  data t <> [] ->
  (Forall in_unit (data t) -> check_range t = ok tt) /\
  (~ Forall in_unit (data t) -> check_range t = raise RangeError).
Proof.
  intros Hne.
  destruct (torch_max_spec t Hne) as [hi [Emax [Hhi Hmax]]].
  destruct (torch_min_spec t Hne) as [lo [Emin [Hlo Hmin]]].
  unfold check_range. rewrite Emin. simpl. rewrite Emax. simpl.
  rewrite Forall_forall in Hmax, Hmin.
  split.
  - intros Hall. rewrite Forall_forall in Hall.
    destruct (Hall lo Hlo) as [L0 _]. destruct (Hall hi Hhi) as [_ H1].
    apply Qle_bool_iff in L0. apply Qle_bool_iff in H1.
    rewrite L0, H1. reflexivity.
  - intros Hnot.
    destruct (Qle_bool 0 lo) eqn:E0; [| reflexivity].
    destruct (Qle_bool hi 1) eqn:E1; [| reflexivity].
    exfalso. apply Hnot. apply Forall_forall. intros y Hy.
    apply Qle_bool_iff in E0. apply Qle_bool_iff in E1.
    split; eapply Qle_trans; eauto.
Qed.

Lemma div_scalar_nonempty {D : Dtype} (t : Tensor) (c : Q) :
  data t <> [] -> data (div_scalar t c) <> [].
Proof.
  simpl. destruct (data t); [congruence | discriminate].
Qed.

Lemma Forall_in_unit_dec (l : list Q) : {Forall in_unit l} + {~ Forall in_unit l}.
Proof.
  apply Forall_dec. intros x. unfold in_unit.
  destruct (Qlt_le_dec x 0) as [L | L].
  - right. intros [H _]. apply (Qlt_not_le _ _ L H).
  - destruct (Qlt_le_dec 1 x) as [U | U].
    + right. intros [_ H]. apply (Qlt_not_le _ _ U H).
    + left. split; assumption.
Qed.

(** Lines 73-76 on an image with an element >= 1: the image is divided by
    255, and the quotient is returned when it lies in [0, 1] and refused
    with the range assertion when it does not. *)
Lemma normalize_range_rescaled {D : Dtype} (image : Tensor) :
  (exists x, In x (data image) /\ (1 <= x)%Q) ->
  rescale image = ok (div_scalar image 255) /\
  (Forall in_unit (data (div_scalar image 255)) ->
     normalize_range image = ok (div_scalar image 255)) /\
  (~ Forall in_unit (data (div_scalar image 255)) ->
     normalize_range image = raise RangeError).
Proof.
  intros [x [Hx H1x]].
  assert (Hne : data image <> []) by (destruct (data image); [contradiction | discriminate]).
  destruct (torch_max_spec image Hne) as [m [Emax [_ Hmax]]].
  assert (Hm : Qle_bool 1 m = true).
  { apply Qle_bool_iff. rewrite Forall_forall in Hmax.
    eapply Qle_trans; [exact H1x | apply Hmax, Hx]. }
  assert (Hres : rescale image = ok (div_scalar image 255)).
  { unfold rescale. rewrite Emax. simpl. rewrite Hm. reflexivity. }
  pose proof (div_scalar_nonempty image 255 Hne) as Hne'.
  destruct (check_range_spec (div_scalar image 255) Hne') as [Hpass Hfail].
  split; [exact Hres |]. split.
  - intros Hall. unfold normalize_range. rewrite Hres. simpl.
    rewrite (Hpass Hall). reflexivity.
  - intros Hnot. unfold normalize_range. rewrite Hres. simpl.
    rewrite (Hfail Hnot). reflexivity.
Qed.

(** Lines 73-76 on a non-empty image whose elements all lie in [0, 1): no
    division, and the range assertion passes. *)
Lemma normalize_range_unit {D : Dtype} (image : Tensor) :
  data image <> [] ->
  Forall below_one (data image) ->
  rescale image = ok image /\ normalize_range image = ok image.
Proof.
  intros Hne Hall.
  destruct (torch_max_spec image Hne) as [m [Emax [Hin _]]].
  rewrite Forall_forall in Hall.
  assert (Hm : Qle_bool 1 m = false).
  { destruct (Qle_bool 1 m) eqn:E; [| reflexivity].
    apply Qle_bool_iff in E. destruct (Hall m Hin) as [_ Hlt].
    exfalso. exact (Qlt_not_le _ _ Hlt E). }
  assert (Hres : rescale image = ok image).
  { unfold rescale. rewrite Emax. simpl. rewrite Hm. reflexivity. }
  split; [exact Hres |].
  unfold normalize_range. rewrite Hres. simpl.
  destruct (check_range_spec image Hne) as [Hpass _].
  rewrite Hpass; [reflexivity |].
  apply Forall_forall. intros y Hy. destruct (Hall y Hy) as [H0 H1].
  split; [exact H0 | now apply Qlt_le_weak].
Qed.


(* ================================================================= *)
(** ** Properties of the layout step (lines 70 to 72) *)

(** Reading a concatenation of [n] blocks of [m] elements each. *)
Lemma nth_flat_map_seq {A : Type} (f : nat -> list A) (m : nat) (d : A) :
  forall n s i j,
    (forall k, s <= k < s + n -> length (f k) = m) ->
    i < n -> j < m ->
    nth (i * m + j) (flat_map f (seq s n)) d = nth j (f (s + i)) d.
Proof.
  induction n as [| n IH]; intros s i j Hlen Hi Hj; [lia |].
  simpl. destruct i as [| i].
  - rewrite app_nth1 by (rewrite Hlen; lia).
    simpl. now rewrite Nat.add_0_r.
  - rewrite app_nth2 by (rewrite Hlen; simpl; lia).
    rewrite Hlen by lia.
    replace (S i * m + j - m) with (i * m + j) by (simpl; lia).
    rewrite IH; [| intros k Hk; apply Hlen; lia | lia | lia].
    f_equal. f_equal. lia.
Qed.

Lemma length_flat_map_seq {A : Type} (f : nat -> list A) (m : nat) :
  forall n s,
    (forall k, s <= k < s + n -> length (f k) = m) ->
    length (flat_map f (seq s n)) = n * m.
Proof.
  induction n as [| n IH]; intros s Hlen; [reflexivity |].
  simpl. rewrite length_app, Hlen by lia.
  rewrite IH; [reflexivity | intros k Hk; apply Hlen; lia].
Qed.

Lemma nth_map_seq {A : Type} (g : nat -> A) (d : A) (n j : nat) :
  j < n -> nth j (map g (seq 0 n)) d = g j.
Proof.
  intros Hj. rewrite (nth_indep _ d (g 0)) by (rewrite length_map, length_seq; exact Hj).
  rewrite (map_nth g (seq 0 n) 0 j), seq_nth by exact Hj. reflexivity.
Qed.

(** [permute(0, 3, 1, 2)] on a (B, H, W, C) tensor: the shape becomes
    (B, C, H, W), the element at [b, c, h, w] is the input's element at
    [b, h, w, c], and no element is lost. *)
Lemma permute_0312_spec (t : Tensor) (B H W C : nat) :
  shape t = [B; H; W; C] ->
  exists t',
    permute_0312 t = ok t' /\
    shape t' = [B; C; H; W] /\
    length (data t') = B * (C * (H * W)) /\
    forall b c h w, b < B -> c < C -> h < H -> w < W ->
      get4 t' b c h w = get4 t b h w c.
Proof.
  intros Hs. unfold permute_0312. rewrite Hs.
  eexists. split; [reflexivity |]. split; [reflexivity |].
  set (row := fun b c h => map (fun w => nth (offset4 H W C b h w c) (data t) 0%Q) (seq 0 W)).
  set (plane := fun b c => flat_map (row b c) (seq 0 H)).
  set (entry := fun b => flat_map (plane b) (seq 0 C)).
  assert (Lrow : forall b c h, length (row b c h) = W).
  { intros. unfold row. now rewrite length_map, length_seq. }
  assert (Lplane : forall b c, length (plane b c) = H * W).
  { intros. unfold plane. apply length_flat_map_seq. intros. apply Lrow. }
  assert (Lentry : forall b, length (entry b) = C * (H * W)).
  { intros. unfold entry. apply length_flat_map_seq. intros. apply Lplane. }
  split.
  - simpl. apply (length_flat_map_seq entry). intros. apply Lentry.
  - intros b c h w Hb Hc Hh Hw.
    unfold get4. rewrite Hs.
    change (nth (offset4 C H W b c h w) (flat_map entry (seq 0 B)) 0%Q
            = nth (offset4 H W C b h w c) (data t) 0%Q).
    assert (Hhw : h * W + w < H * W) by nia.
    assert (Hchw : c * (H * W) + (h * W + w) < C * (H * W)) by nia.
    replace (offset4 C H W b c h w) with (b * (C * (H * W)) + (c * (H * W) + (h * W + w)))
      by (unfold offset4; ring).
    rewrite (nth_flat_map_seq entry (C * (H * W))); [| intros; apply Lentry | exact Hb | exact Hchw].
    unfold entry.
    rewrite (nth_flat_map_seq (plane (0 + b)) (H * W)); [| intros; apply Lplane | exact Hc | exact Hhw].
    unfold plane.
    rewrite (nth_flat_map_seq (row (0 + b) (0 + c)) W); [| intros; apply Lrow | exact Hh | exact Hw].
    unfold row. rewrite nth_map_seq by exact Hw. reflexivity.
Qed.

Lemma shape_last_rank4 (t : Tensor) (B d1 d2 d3 : nat) :
  shape t = [B; d1; d2; d3] -> shape_last t = ok d3.
Proof. intros Hs. unfold shape_last. rewrite Hs. reflexivity. Qed.

(** Lines 70-72 on a rank-4 image: nothing happens when the last dimension
    is not 3; otherwise the last axis moves to position 1, the element at
    [b, c, h, w] of the result being the element at [b, h, w, c] of the
    input. *)
Lemma channel_first_layout (image : Tensor) (d0 d1 d2 d3 : nat) :
  shape image = [d0; d1; d2; d3] ->
  (d3 <> 3 -> channel_first image = ok image) /\
  (d3 = 3 ->
     exists image',
       channel_first image = ok image' /\
       shape image' = [d0; 3; d1; d2] /\
       length (data image') = d0 * (3 * (d1 * d2)) /\
       forall b c h w, b < d0 -> c < 3 -> h < d1 -> w < d2 ->
         get4 image' b c h w = get4 image b h w c).
Proof.
  intros Hs. unfold channel_first.
  rewrite (shape_last_rank4 image _ _ _ _ Hs). simpl.
  split.
  - intros Hne. apply Nat.eqb_neq in Hne. rewrite Hne. reflexivity.
  - intros ->. simpl.
    destruct (permute_0312_spec image d0 d1 d2 3 Hs) as [t' [E [S' [L G]]]].
    exists t'. auto.
Qed.

(** The image of width 3 on a run: the (1, 3, 2, 3) channel-first image
    comes out as (1, 3, 3, 2), and channel 0 of the result holds column 0 of
    all three input channels. *)
Example narrow_image_is_permuted :
  exists image',
    channel_first Examples.narrow_nchw = ok image' /\
    shape image' = [1; 3; 3; 2] /\
    firstn 6 (data image') = [0 # 100; 3 # 100; 6 # 100; 9 # 100; 12 # 100; 15 # 100]%Q.
Proof. eexists. split; [reflexivity | split; reflexivity]. Qed.

(* ================================================================= *)
(** ** How [forward] runs *)

Lemma bind_lift_ok {A B : Type} (a : A) (k : A -> M B) :
  bind (lift (ok a)) k = k a.
Proof. unfold bind, lift. simpl. destruct (k a). reflexivity. Qed.

Lemma bind_ret {A B : Type} (a : A) (k : A -> M B) :
  bind (ret a) k = k a.
Proof. apply bind_lift_ok. Qed.

Lemma bind_lift_raise {A B : Type} (e : exn) (k : A -> M B) :
  bind (lift (raise e)) k = ([], raise e).
Proof. reflexivity. Qed.

Lemma bind_call_ok {A B : Type} (ev : event) (a : A) (k : A -> M B) :
  bind (call ev (ok a)) k = (ev :: fst (k a), snd (k a)).
Proof. reflexivity. Qed.

Lemma bind_call_raise {A B : Type} (ev : event) (e : exn) (k : A -> M B) :
  bind (call ev (raise e)) k = ([ev], raise e).
Proof. reflexivity. Qed.

Lemma snd_bind_ok {A B : Type} (m : M A) (k : A -> M B) (b : B) :
  snd (bind m k) = ok b -> exists a, snd m = ok a /\ snd (k a) = ok b.
Proof.
  unfold bind. destruct (snd m) as [e | a]; simpl; [discriminate |].
  intros H. exists a. split; [reflexivity | exact H].
Qed.

Lemma log_sat_lift {A : Type} (P : event -> Prop) (r : result A) :
  log_sat P (lift r).
Proof. constructor. Qed.

Lemma log_sat_call {A : Type} (P : event -> Prop) (ev : event) (r : result A) :
  P ev -> log_sat P (call ev r).
Proof. intros H. constructor; [exact H | constructor]. Qed.

Lemma log_sat_bind {A B : Type} (P : event -> Prop) (m : M A) (k : A -> M B) :
  log_sat P m -> (forall a, log_sat P (k a)) -> log_sat P (bind m k).
Proof.
  unfold log_sat, bind. intros Hm Hk.
  destruct (snd m) as [e | a]; simpl; [exact Hm |].
  apply Forall_app. split; [exact Hm | apply Hk].
Qed.

Lemma add_batch_dim_rank3 (image : Tensor) :
  rank image = 3 ->
  add_batch_dim image = ok {| shape := 1 :: shape image; data := data image |}.
Proof.
  intros H. unfold add_batch_dim, unsqueeze. rewrite H. reflexivity.
Qed.

Lemma add_batch_dim_other (image : Tensor) :
  rank image <> 3 -> add_batch_dim image = ok image.
Proof.
  intros H. unfold add_batch_dim. apply Nat.eqb_neq in H. rewrite H. reflexivity.
Qed.

Lemma canonicalize_bad_rank {D : Dtype} (image : Tensor) :
  rank image <> 3 -> rank image <> 4 ->
  canonicalize image = raise (ShapeError (shape image)).
Proof.
  intros H3 H4. unfold canonicalize.
  rewrite (add_batch_dim_other image H3). simpl.
  unfold check_rank. apply Nat.eqb_neq in H4. rewrite H4. reflexivity.
Qed.

Section ForwardProperties.

Context {D : Dtype}.
Variable preprocess : Tensor -> result Tensor.

(** C6. On an encoder built with [include_top=True], a call that passes a
    context fails with the assertion of line 65 whatever the image is, and
    the log is empty: nothing was canonicalised, preprocessed or given to
    the backbone before. *)
Theorem include_top_rejects_context
    (self : FilmEfficientNetEncoder) (image context : Tensor) :
  include_top self = true ->
  forward preprocess self image (Some context) = ([], raise UsageError).
Proof.
  intros H. unfold forward. rewrite H. reflexivity.
Qed.

(** C8. A rank-3 image and the same image with a leading batch dimension
    of size 1 give the same call: same log, same outcome. *)
Theorem forward_rank3_as_batch_of_one
    (self : FilmEfficientNetEncoder) (image : Tensor) (context : option Tensor) :
  rank image = 3 ->
  exists image4,
    unsqueeze 0 image = ok image4 /\
    shape image4 = 1 :: shape image /\
    data image4 = data image /\
    forward preprocess self image context = forward preprocess self image4 context.
Proof.
  intros H.
  exists {| shape := 1 :: shape image; data := data image |}.
  split; [| split; [reflexivity | split; [reflexivity |]]].
  - unfold unsqueeze. rewrite H. reflexivity.
  - assert (E : canonicalize image
                = canonicalize {| shape := 1 :: shape image; data := data image |}).
    { unfold canonicalize.
      rewrite (add_batch_dim_rank3 image H).
      rewrite add_batch_dim_other; [reflexivity |].
      unfold rank in *. simpl. lia. }
    unfold forward. rewrite E. reflexivity.
Qed.

(** C9, as the code has it. An image whose rank is neither 3 nor 4 makes
    the call fail before any stage runs (the log is empty): with the shape
    assertion of line 69 when the check of line 65 passes, and with the
    assertion of line 65 itself when the encoder has [include_top=True]
    and a context is passed. Canonicalisation on its own always fails
    with the shape assertion. *)
Theorem forward_bad_rank
    (self : FilmEfficientNetEncoder) (image : Tensor) (context : option Tensor) :
  rank image <> 3 -> rank image <> 4 ->
  canonicalize image = raise (ShapeError (shape image)) /\
  forward preprocess self image context
  = ([], raise (if include_top self && is_some context
                then UsageError else ShapeError (shape image))).
Proof.
  intros H3 H4.
  pose proof (canonicalize_bad_rank image H3 H4) as E.
  split; [exact E |].
  unfold forward. rewrite E.
  destruct (include_top self); destruct context; reflexivity.
Qed.

End ForwardProperties.

Lemma include_top_rejects_context_witness :
  forward Examples.toy_preprocess
    (Examples.toy_encoder 4 true false)
    Examples.raw_nhwc (Some Examples.toy_context)
  = ([], raise UsageError).
Proof.
  apply (include_top_rejects_context Examples.toy_preprocess). reflexivity.
Defined.

Lemma forward_rank3_as_batch_of_one_witness :
  exists image4,
    unsqueeze 0 (mkTensor [2; 2; 3] (data Examples.raw_nhwc)) = ok image4 /\
    shape image4 = [1; 2; 2; 3] /\
    data image4 = data Examples.raw_nhwc /\
    forward Examples.toy_preprocess
      (Examples.toy_encoder 4 false false)
      (mkTensor [2; 2; 3] (data Examples.raw_nhwc)) None
    = forward Examples.toy_preprocess
        (Examples.toy_encoder 4 false false)
        image4 None.
Proof.
  apply (forward_rank3_as_batch_of_one Examples.toy_preprocess
           (Examples.toy_encoder 4 false false)
           (mkTensor [2; 2; 3] (data Examples.raw_nhwc)) None).
  reflexivity.
Defined.

Lemma forward_bad_rank_witness :
  canonicalize (mkTensor [2; 3] [1; 2; 3; 4; 5; 6]%Q) = raise (ShapeError [2; 3]) /\
  forward Examples.toy_preprocess
    (Examples.toy_encoder 4 false false)
    (mkTensor [2; 3] [1; 2; 3; 4; 5; 6]%Q) None
  = ([], raise (ShapeError [2; 3])).
Proof.
  apply (forward_bad_rank Examples.toy_preprocess
           (Examples.toy_encoder 4 false false)
           (mkTensor [2; 3] [1; 2; 3; 4; 5; 6]%Q) None);
    discriminate.
Defined.

(** C9 as stated fails: with [include_top=True] and a context, a rank-2
    image makes the call fail with the assertion of line 65, which is not
    the shape assertion. *)
Lemma bad_rank_with_include_top_and_context :
  rank (mkTensor [2; 3] [1; 2; 3; 4; 5; 6]%Q) = 2 /\
  forward Examples.toy_preprocess
    (Examples.toy_encoder 4 true false)
    (mkTensor [2; 3] [1; 2; 3; 4; 5; 6]%Q) (Some Examples.toy_context)
  = ([], raise UsageError) /\
  UsageError <> ShapeError [2; 3].
Proof.
  split; [reflexivity | split; [reflexivity | discriminate]].
Qed.

(* ================================================================= *)
(** ** The degenerate feature map (lines 82 to 94) *)

Lemma bind_ext {A B : Type} (m : M A) (k k' : A -> M B) :
  (forall a, snd m = ok a -> k a = k' a) -> bind m k = bind m k'.
Proof.
  intros H. unfold bind. destruct (snd m) as [e | a]; [reflexivity |].
  rewrite (H a eq_refl). reflexivity.
Qed.

Lemma map_nth_seq_id {A : Type} (l : list A) (d : A) :
  map (fun k => nth k l d) (seq 0 (length l)) = l.
Proof.
  induction l as [| a l IH]; [reflexivity |].
  simpl. f_equal.
  rewrite <- seq_shift, map_map. exact IH.
Qed.

(** The average over a single position is that position's value. *)
Lemma Qavg_single (x : Q) : ((x + 0) / inject_Z (Z.of_nat 1))%Q = x.
Proof.
  destruct x as [n d]. unfold Qdiv, Qmult, Qplus, Qinv. simpl.
  rewrite !Z.mul_1_r, Z.add_0_r, !Pos.mul_1_r. reflexivity.
Qed.

Lemma avg_pool2d_full_1x1 (t : Tensor) (B C : nat) :
  shape t = [B; C; 1; 1] -> wf t -> 0 < C ->
  avg_pool2d_full t = ok t.
Proof.
  destruct t as [s d]. unfold wf. simpl. intros -> Hwf HC.
  unfold avg_pool2d_full, shape_at. simpl.
  apply Nat.ltb_lt in HC. rewrite HC. simpl.
  unfold ok. do 2 f_equal.
  rewrite (map_ext _ (fun k => nth k d 0%Q)).
  - replace (B * C) with (length d) by (rewrite Hwf; simpl; lia).
    apply map_nth_seq_id.
  - intros k. unfold block. simpl.
    rewrite Nat.mul_1_r, Nat.add_0_r. apply Qavg_single.
Qed.

(** Lines 82 and 94 on a (B, C) summary: two singleton dimensions are
    appended, and flattening removes them again. *)
Lemma unsqueeze_2_3 (feat : Tensor) (B C : nat) :
  shape feat = [B; C] ->
  exists f2 f3,
    unsqueeze 2 feat = ok f2 /\ unsqueeze 3 f2 = ok f3 /\
    shape f3 = [B; C; 1; 1] /\ data f3 = data feat.
Proof.
  intros Hs. unfold unsqueeze, rank. rewrite Hs. simpl.
  eexists. eexists. split; [reflexivity |]. simpl. auto.
Qed.

Lemma flatten1_1x1 (t : Tensor) (B C : nat) :
  shape t = [B; C; 1; 1] ->
  flatten1 t = ok {| shape := [B; C]; data := data t |}.
Proof.
  intros Hs. unfold flatten1. rewrite Hs. simpl.
  rewrite Nat.mul_1_r. reflexivity.
Qed.

Lemma length_conv1x1_entry (m : Conv2d) (xs : list Q) (C HW x0 : nat) :
  length (conv1x1_entry m xs C HW x0) = out_channels m * HW.
Proof.
  unfold conv1x1_entry. apply length_flat_map_seq.
  intros k _. now rewrite length_map, length_seq.
Qed.

(** The 1x1 convolution on a batched input with the right channel count:
    the channel dimension becomes [out_channels], nothing else changes. *)
Lemma conv2d_rank4 (m : Conv2d) (x : Tensor) (B C H W : nat) :
  shape x = [B; C; H; W] -> C = in_channels m -> 0 < H -> 0 < W ->
  exists y, conv2d m x = ok y /\ shape y = [B; out_channels m; H; W] /\ wf y.
Proof.
  intros Hs HC HH HW. unfold conv2d. rewrite Hs.
  apply Nat.eqb_eq in HC. apply Nat.ltb_lt in HH. apply Nat.ltb_lt in HW.
  rewrite HC, HH, HW. simpl.
  eexists. split; [reflexivity |]. split; [reflexivity |].
  unfold wf. simpl.
  rewrite (length_flat_map_seq _ (out_channels m * (H * W))).
  - ring.
  - intros k _. apply length_conv1x1_entry.
Qed.

Lemma conv2d_rank4_mismatch (m : Conv2d) (x : Tensor) (B C H W : nat) :
  shape x = [B; C; H; W] -> C <> in_channels m ->
  conv2d m x = raise RuntimeError.
Proof.
  intros Hs HC. unfold conv2d. rewrite Hs.
  apply Nat.eqb_neq in HC. rewrite HC. reflexivity.
Qed.

Lemma conv2d_shape (m : Conv2d) (x y : Tensor) (B C : nat) :
  shape x = [B; C; 1; 1] -> conv2d m x = ok y ->
  shape y = [B; out_channels m; 1; 1] /\ wf y.
Proof.
  intros Hs E.
  destruct (Nat.eq_dec C (in_channels m)) as [HC | HC].
  - destruct (conv2d_rank4 m x B C 1 1 Hs HC) as [y' [E' [S' W']]]; try lia.
    rewrite E in E'. inversion E'. subst. auto.
  - rewrite (conv2d_rank4_mismatch m x B C 1 1 Hs HC) in E. discriminate.
Qed.

(* ================================================================= *)
(** ** The unconditioned path and the pooling flag *)

Lemma log_sat_ret {A : Type} (P : event -> Prop) (a : A) : log_sat P (ret a).
Proof. constructor. Qed.

Lemma tensor_eta (t : Tensor) : {| shape := shape t; data := data t |} = t.
Proof. destruct t. reflexivity. Qed.

Section Unconditioned.

Context {D : Dtype}.
Variable preprocess : Tensor -> result Tensor.

(** C4. A call without context never calls the 1x1 convolution or the
    FiLM layer. When the image is canonicalised to [x], preprocessed to
    [p], and the backbone returns the (B, C) summary [feat], the call
    makes those two calls and returns [feat] itself: its (B, C, 1, 1)
    reshaping, flattened again, with width C. With pooling the summary
    goes through [avg_pool2d], which needs C > 0. *)
Theorem forward_without_context (self : FilmEfficientNetEncoder) (image : Tensor) :
  log_sat (fun ev => is_conditioning ev = false) (forward preprocess self image None) /\
  (forall x p feat B C,
     canonicalize image = ok x ->
     preprocess x = ok p ->
     net self p None = ok feat ->
     shape feat = [B; C] -> wf feat ->
     (_pooling self = true -> 0 < C) ->
     forward preprocess self image None
     = ([CallPreprocess x; CallNet p None], ok feat)).
Proof.
  split.
  - unfold forward.
    apply log_sat_bind; [apply log_sat_lift | intros _].
    apply log_sat_bind; [apply log_sat_lift | intros x].
    apply log_sat_bind; [apply log_sat_call; reflexivity | intros p].
    apply log_sat_bind; [apply log_sat_call; reflexivity | intros feat].
    apply log_sat_bind; [apply log_sat_lift | intros f2].
    apply log_sat_bind; [apply log_sat_lift | intros f3].
    apply log_sat_bind; [apply log_sat_ret | intros f4].
    apply log_sat_bind; [| intros f5; apply log_sat_lift].
    destruct (_pooling self); [apply log_sat_lift | apply log_sat_ret].
  - intros x p feat B C Hx Hp Hn Hs Hwf HC.
    destruct (unsqueeze_2_3 feat B C Hs) as [f2 [f3 [E2 [E3 [S3 D3]]]]].
    assert (W3 : wf f3).
    { unfold wf in *. rewrite D3, S3, Hwf, Hs. simpl. lia. }
    assert (Hpool : (if _pooling self then lift (avg_pool2d_full f3) else ret f3)
                    = ret f3).
    { destruct (_pooling self); [| reflexivity].
      rewrite (avg_pool2d_full_1x1 f3 B C S3 W3 (HC eq_refl)). reflexivity. }
    assert (Hflat : flatten1 f3 = ok feat).
    { rewrite (flatten1_1x1 f3 B C S3), D3, <- Hs. now rewrite tensor_eta. }
    unfold forward.
    replace (if include_top self then assert true ContextWithIncludeTop else ok tt)
      with (ok tt) by (destruct (include_top self); reflexivity).
    rewrite bind_lift_ok, Hx, bind_lift_ok, Hp, bind_call_ok, Hn, !bind_call_ok.
    rewrite E2, !bind_lift_ok, E3, !bind_lift_ok, !bind_ret, Hpool, !bind_ret.
    rewrite Hflat. reflexivity.
Qed.

End Unconditioned.

Lemma bind_assoc {A B C : Type} (m : M A) (k : A -> M B) (h : B -> M C) :
  bind (bind m k) h = bind m (fun a => bind (k a) h).
Proof.
  unfold bind. destruct (snd m) as [e | a]; simpl; [reflexivity |].
  destruct (snd (k a)) as [e | b]; simpl; [reflexivity |].
  rewrite app_assoc. reflexivity.
Qed.

Lemma forward_split {D : Dtype} (preprocess : Tensor -> result Tensor)
    (self : FilmEfficientNetEncoder) (image : Tensor) (context : option Tensor) :
  forward preprocess self image context
  = bind (feature_map preprocess self image context) (reduce (_pooling self)).
Proof.
  unfold forward, feature_map.
  do 6 (rewrite bind_assoc; apply bind_ext; intros ? _).
  reflexivity.
Qed.

(** Under the collaborators' contracts the feature map that reaches the
    reduction is a well-formed (B, C, 1, 1) tensor with C > 0: the
    projector's output width on the conditioned path, the backbone's own
    width, with the backbone's values, otherwise. *)
Lemma feature_map_is_1x1 {D : Dtype} (preprocess : Tensor -> result Tensor)
    (self : FilmEfficientNetEncoder) (image : Tensor) (context : option Tensor)
    (f : Tensor) :
  backbone_contract (net self) ->
  film_contract (film_forward (film_layer self)) ->
  0 < out_channels (conv1x1 self) ->
  snd (feature_map preprocess self image context) = ok f ->
  exists B C,
    shape f = [B; C; 1; 1] /\ wf f /\ 0 < C /\
    match context with
    | Some _ => C = out_channels (conv1x1 self)
    | None => exists p feat,
        net self p None = ok feat /\ feat = {| shape := [B; C]; data := data f |}
    end.
Proof.
  intros Hnet Hfilm Hout H. unfold feature_map in H.
  apply snd_bind_ok in H. destruct H as [u [_ H]].
  apply snd_bind_ok in H. destruct H as [x [_ H]].
  apply snd_bind_ok in H. destruct H as [p [_ H]].
  apply snd_bind_ok in H. destruct H as [feat [Hfeat H]].
  apply snd_bind_ok in H. destruct H as [f2 [H2 H]].
  apply snd_bind_ok in H. destruct H as [f3 [H3 H]].
  simpl in Hfeat, H2, H3.
  destruct (Hnet _ _ _ Hfeat) as [Wfeat [B [C [Sfeat HC]]]].
  destruct (unsqueeze_2_3 feat B C Sfeat) as [g2 [g3 [E2 [E3 [S3 D3]]]]].
  rewrite E2 in H2. inversion H2. subst g2.
  rewrite E3 in H3. inversion H3. subst g3.
  assert (W3 : wf f3).
  { unfold wf in *. rewrite D3, S3, Wfeat, Sfeat. simpl. lia. }
  destruct context as [c |].
  - apply snd_bind_ok in H. destruct H as [fc [Hc Hf]].
    simpl in Hc, Hf.
    destruct (conv2d_shape _ _ _ B C S3 Hc) as [Sc Wc].
    destruct (Hfilm fc c f Wc Hf) as [Sf Wf].
    exists B, (out_channels (conv1x1 self)).
    rewrite Sf, Sc. auto.
  - simpl in H. inversion H. subst f.
    exists B, C. repeat split; auto.
    exists p, feat. split; [exact Hfeat |].
    rewrite D3, <- Sfeat. symmetry. apply tensor_eta.
Qed.

(** On such a feature map the reduction does not depend on the pooling
    flag, and returns the (B, C) tensor with the same elements. *)
Lemma reduce_1x1 (pooling : bool) (f : Tensor) (B C : nat) :
  shape f = [B; C; 1; 1] -> wf f -> 0 < C ->
  reduce pooling f = ret {| shape := [B; C]; data := data f |}.
Proof.
  intros Hs Hwf HC. unfold reduce.
  assert (E : (if pooling then lift (avg_pool2d_full f) else ret f) = ret f).
  { destruct pooling; [| reflexivity].
    rewrite (avg_pool2d_full_1x1 f B C Hs Hwf HC). reflexivity. }
  rewrite E, bind_ret, (flatten1_1x1 f B C Hs). reflexivity.
Qed.

Section Construction.

Context {D : Dtype}.
Variable filmefficientnet_b3 : bool -> option string -> result Backbone.
Variable FilmConditioning_forward : nat -> Tensor -> Tensor -> result Tensor.
Variable preprocess : Tensor -> result Tensor.
Variable kaiming_normal : nat -> nat -> Q.

(** What a successful construction has built. *)
Lemma init_inv (model_variant : string) (weights : option string)
    (include_top pooling : bool) (kwargs : list string)
    (self : FilmEfficientNetEncoder) :
  __init__ filmefficientnet_b3 FilmConditioning_forward kaiming_normal
      model_variant weights include_top pooling kwargs = ok self ->
  exists n,
    filmefficientnet_b3 include_top weights = ok n /\
    model_variant = "b3"%string /\ kwargs = [] /\
    self = {| net := n;
              include_top := include_top;
              conv1x1 := {| in_channels := 1536; out_channels := 512;
                            weight := kaiming_normal |};
              film_layer := {| num_channels := 512;
                               film_forward := FilmConditioning_forward 512 |};
              _pooling := pooling |}.
Proof.
  unfold __init__. destruct kwargs as [| k ks]; [| discriminate].
  simpl. destruct (String.eqb model_variant "b3") eqn:Ev; [| discriminate].
  apply String.eqb_eq in Ev.
  destruct (filmefficientnet_b3 include_top weights) as [e | n]; [discriminate |].
  simpl. intros H. inversion H. exists n. auto.
Qed.

(** C3, as the code has it. A constructed encoder owns a 1x1 convolution
    from 1536 input channels (the backbone's width) to 512 output
    channels, and a FiLM layer of 512 channels: it is the projector's
    output width that equals the conditioner's width. The convolution
    takes (B, 1536, H, W) to (B, 512, H, W) and refuses any other channel
    count, 512 included. [forward] returns a tensor and no encoder: no
    call changes these widths. *)
Theorem init_channel_widths (model_variant : string) (weights : option string)
    (include_top pooling : bool) (kwargs : list string)
    (self : FilmEfficientNetEncoder) :
  __init__ filmefficientnet_b3 FilmConditioning_forward kaiming_normal
      model_variant weights include_top pooling kwargs = ok self ->
  in_channels (conv1x1 self) = 1536 /\
  out_channels (conv1x1 self) = 512 /\
  num_channels (film_layer self) = 512 /\
  out_channels (conv1x1 self) = num_channels (film_layer self) /\
  (forall x B H W, shape x = [B; 1536; H; W] -> 0 < H -> 0 < W ->
     exists y, conv2d (conv1x1 self) x = ok y /\ shape y = [B; 512; H; W] /\ wf y) /\
  (forall x B C H W, shape x = [B; C; H; W] -> C <> 1536 ->
     conv2d (conv1x1 self) x = raise RuntimeError).
Proof.
  intros H. destruct (init_inv _ _ _ _ _ _ H) as [n [_ [_ [_ ->]]]].
  cbn [conv1x1 film_layer in_channels out_channels num_channels].
  repeat split.
  - intros x B H' W Hs HH HW.
    apply (conv2d_rank4 (mkConv2d 1536 512 kaiming_normal) x B 1536 H' W Hs eq_refl HH HW).
  - intros x B C H' W Hs HC.
    apply (conv2d_rank4_mismatch (mkConv2d 1536 512 kaiming_normal) x B C H' W Hs HC).
Qed.

(** C5. Two encoders constructed from the same arguments, one with
    [pooling=True] and one with [pooling=False], give the same call on
    every image and context: same log, same outcome, element for element.
    The feature map is (B, C, 1, 1), so the average is taken over one
    position. What is returned has shape (B, 512) when a context is
    passed and is the backbone's own (B, C) summary otherwise. The
    backbone and the FiLM layer are assumed to keep their contracts. *)
Theorem pooling_makes_no_difference (model_variant : string) (weights : option string)
    (include_top : bool) (kwargs : list string)
    (pooled unpooled : FilmEfficientNetEncoder)
    (image : Tensor) (context : option Tensor) :
  (forall it w n, filmefficientnet_b3 it w = ok n -> backbone_contract n) ->
  film_contract (FilmConditioning_forward 512) ->
  __init__ filmefficientnet_b3 FilmConditioning_forward kaiming_normal
      model_variant weights include_top true kwargs = ok pooled ->
  __init__ filmefficientnet_b3 FilmConditioning_forward kaiming_normal
      model_variant weights include_top false kwargs = ok unpooled ->
  forward preprocess pooled image context = forward preprocess unpooled image context /\
  (forall out, snd (forward preprocess unpooled image context) = ok out ->
     exists B C,
       shape out = [B; C] /\
       match context with
       | Some _ => C = 512
       | None => exists p, net unpooled p None = ok out
       end).
Proof.
  intros Hfac Hfilm Hp Hu.
  destruct (init_inv _ _ _ _ _ _ Hp) as [n [Hn [_ [_ Ep]]]].
  destruct (init_inv _ _ _ _ _ _ Hu) as [n' [Hn' [_ [_ Eu]]]].
  rewrite Hn in Hn'. inversion Hn'. subst n'. clear Hn'.
  pose proof (Hfac _ _ _ Hn) as Hnet.
  assert (Hmap : forall f,
            snd (feature_map preprocess unpooled image context) = ok f ->
            exists B C,
              shape f = [B; C; 1; 1] /\ wf f /\ 0 < C /\
              match context with
              | Some _ => C = 512
              | None => exists p feat,
                  net unpooled p None = ok feat /\
                  feat = {| shape := [B; C]; data := data f |}
              end).
  { intros f Hf.
    assert (E512 : out_channels (conv1x1 unpooled) = 512) by (subst unpooled; reflexivity).
    rewrite <- E512.
    apply (feature_map_is_1x1 preprocess unpooled image context f);
      [subst unpooled; exact Hnet | subst unpooled; exact Hfilm
      | rewrite E512; lia | exact Hf]. }
  assert (Esame : feature_map preprocess pooled image context
                  = feature_map preprocess unpooled image context).
  { subst pooled unpooled. reflexivity. }
  split.
  - rewrite !forward_split, Esame.
    apply bind_ext. intros f Hf.
    destruct (Hmap f Hf) as [B [C [Hs [Hwf [HC _]]]]].
    rewrite (reduce_1x1 (_pooling pooled) f B C Hs Hwf HC).
    rewrite (reduce_1x1 (_pooling unpooled) f B C Hs Hwf HC).
    reflexivity.
  - intros out Hout. rewrite forward_split in Hout.
    apply snd_bind_ok in Hout. destruct Hout as [f [Hf Hred]].
    destruct (Hmap f Hf) as [B [C [Hs [Hwf [HC Hctx]]]]].
    rewrite (reduce_1x1 _ f B C Hs Hwf HC) in Hred.
    simpl in Hred. inversion Hred. subst out.
    exists B, C. split; [reflexivity |].
    destruct context as [c |]; [exact Hctx |].
    destruct Hctx as [p [feat [Hfeat ->]]].
    exists p. exact Hfeat.
Qed.

End Construction.

Lemma toy_factory_contract (width : nat) (it : bool) (w : option string) (n : Backbone) :
  0 < width -> Examples.toy_factory width it w = ok n -> backbone_contract n.
Proof.
  intros Hw H. inversion H. subst n. clear H.
  intros image context feat E. unfold Examples.toy_net in E.
  destruct (shape image) as [| B s]; [discriminate |].
  inversion E. subst feat. split.
  - unfold wf. simpl. rewrite length_map, length_seq. lia.
  - exists B, width. auto.
Qed.

Lemma toy_film_contract (n : nat) : film_contract (Examples.toy_film n).
Proof.
  intros x context y Hwf E. inversion E. subst y. split; [reflexivity |].
  unfold wf in *. simpl. rewrite length_map. exact Hwf.
Qed.

Lemma init_channel_widths_witness :
  in_channels (conv1x1 (Examples.toy_encoder 4 false false)) = 1536 /\
  out_channels (conv1x1 (Examples.toy_encoder 4 false false)) = 512 /\
  num_channels (film_layer (Examples.toy_encoder 4 false false)) = 512 /\
  out_channels (conv1x1 (Examples.toy_encoder 4 false false))
  = num_channels (film_layer (Examples.toy_encoder 4 false false)) /\
  (forall x B H W, shape x = [B; 1536; H; W] -> 0 < H -> 0 < W ->
     exists y, conv2d (conv1x1 (Examples.toy_encoder 4 false false)) x = ok y /\
               shape y = [B; 512; H; W] /\ wf y) /\
  (forall x B C H W, shape x = [B; C; H; W] -> C <> 1536 ->
     conv2d (conv1x1 (Examples.toy_encoder 4 false false)) x = raise RuntimeError).
Proof.
  apply (init_channel_widths (Examples.toy_factory 4) Examples.toy_film Examples.toy_weight
           "b3"%string (Some "DEFAULT"%string) false false []).
  reflexivity.
Defined.

(** C3 as stated fails: the projector of a constructed encoder has 1536
    input channels, not 512, and refuses a 512-channel feature map. *)
Lemma projector_input_width_is_not_512 :
  __init__ (Examples.toy_factory 4) Examples.toy_film Examples.toy_weight
    "b3"%string (Some "DEFAULT"%string) false false []
  = ok (Examples.toy_encoder 4 false false) /\
  in_channels (conv1x1 (Examples.toy_encoder 4 false false)) <> 512 /\
  conv2d (conv1x1 (Examples.toy_encoder 4 false false))
    {| shape := [1; 512; 1; 1]; data := repeat 0%Q 512 |}
  = raise RuntimeError.
Proof.
  split; [reflexivity | split; [| reflexivity]].
  simpl. intros H. apply (f_equal (fun n => n <=? 512)) in H.
  vm_compute in H. discriminate.
Qed.

Lemma forward_without_context_witness :
  forward Examples.toy_preprocess (Examples.toy_encoder 4 false true)
    Examples.raw_nhwc None
  = ([CallPreprocess (div_scalar Examples.raw_chw 255);
      CallNet (div_scalar Examples.raw_chw 255) None],
     ok {| shape := [1; 4]; data := [0 # 255; 153 # 255; 10 # 255; 40 # 255]%Q |}).
Proof.
  apply (proj2 (forward_without_context Examples.toy_preprocess
                  (Examples.toy_encoder 4 false true) Examples.raw_nhwc)
           (div_scalar Examples.raw_chw 255) (div_scalar Examples.raw_chw 255)
           {| shape := [1; 4]; data := [0 # 255; 153 # 255; 10 # 255; 40 # 255]%Q |} 1 4).
  - reflexivity.
  - reflexivity.
  - reflexivity.
  - reflexivity.
  - reflexivity.
  - intros _. lia.
Defined.

Lemma pooling_makes_no_difference_witness :
  forward Examples.toy_preprocess (Examples.toy_encoder 1536 false true)
    Examples.raw_nhwc (Some Examples.toy_context)
  = forward Examples.toy_preprocess (Examples.toy_encoder 1536 false false)
      Examples.raw_nhwc (Some Examples.toy_context) /\
  (forall out,
     snd (forward Examples.toy_preprocess (Examples.toy_encoder 1536 false false)
            Examples.raw_nhwc (Some Examples.toy_context)) = ok out ->
     exists B C, shape out = [B; C] /\ C = 512).
Proof.
  apply (pooling_makes_no_difference (Examples.toy_factory 1536) Examples.toy_film
           Examples.toy_preprocess Examples.toy_weight
           "b3"%string (Some "DEFAULT"%string) false []
           (Examples.toy_encoder 1536 false true) (Examples.toy_encoder 1536 false false)
           Examples.raw_nhwc (Some Examples.toy_context)).
  - intros it w n. apply toy_factory_contract. lia.
  - apply toy_film_contract.
  - reflexivity.
  - reflexivity.
Defined.

(** The same two encoders on a call without context, run to the end: both
    return the backbone's (1, 4) summary. *)
Example pooled_and_unpooled_run :
  forward Examples.toy_preprocess (Examples.toy_encoder 4 false true)
    Examples.white_nchw None
  = forward Examples.toy_preprocess (Examples.toy_encoder 4 false false)
      Examples.white_nchw None /\
  snd (forward Examples.toy_preprocess (Examples.toy_encoder 4 false false)
         Examples.white_nchw None)
  = ok {| shape := [1; 4]; data := [0 # 255; 1 # 510; 1 # 1020; 1 # 255]%Q |}.
Proof. split; reflexivity. Qed.

(* ================================================================= *)
(** ** More runs *)

(** A raw channel-last image is permuted and divided by 255. *)
Example canonicalize_raw_image :
  canonicalize Examples.raw_nhwc = ok (div_scalar Examples.raw_chw 255).
Proof. reflexivity. Qed.

(** A value above 255 and a negative value both end at the range assertion:
    the first after the division, the second without it. *)
Example canonicalize_out_of_range :
  canonicalize {| shape := [1; 1; 1; 2]; data := [300; 10]%Q |} = raise RangeError /\
  canonicalize {| shape := [1; 1; 1; 2]; data := [-(1 # 2); 1 # 2]%Q |} = raise RangeError.
Proof. split; reflexivity. Qed.

(** An image without elements stops at [torch.max]. *)
Example canonicalize_empty_image :
  canonicalize {| shape := [0; 3; 2; 2]; data := [] |} = raise RuntimeError.
Proof. reflexivity. Qed.

(** Construction: an unknown variant and an extra keyword argument. *)
Example init_unknown_variant :
  __init__ (Examples.toy_factory 4) Examples.toy_film Examples.toy_weight
    "b7"%string (Some "DEFAULT"%string) false false []
  = raise (ConfigError "Unknown variant b7"%string).
Proof. reflexivity. Qed.

Example init_extra_keyword :
  __init__ (Examples.toy_factory 4) Examples.toy_film Examples.toy_weight
    "b3"%string (Some "DEFAULT"%string) false false ["name"%string]
  = raise TypeError.
Proof. reflexivity. Qed.

(** A conditioned call on a backbone of width 4 stops at the projector,
    which expects 1536 channels; the FiLM layer is never reached. *)
Example forward_projector_mismatch :
  forward Examples.toy_preprocess (Examples.toy_encoder 4 false false)
    Examples.white_nchw (Some Examples.toy_context)
  = ([CallPreprocess (div_scalar Examples.white_nchw 255);
      CallNet (div_scalar Examples.white_nchw 255) (Some Examples.toy_context);
      CallConv1x1 {| shape := [1; 4; 1; 1];
                     data := [0 # 255; 1 # 510; 1 # 1020; 1 # 255]%Q |}],
     raise RuntimeError).
Proof. reflexivity. Qed.

(* ================================================================= *)
(** ** Which values the range steps accept *)

Lemma div255_in_unit {D : Dtype} (x : Q) :
  RoundLaws D -> in_byte_range x -> in_unit (fl (x / 255)).
Proof.
  intros L [H0 H1]. split.
  - apply Qle_trans with (fl 0).
    + rewrite (fl_zero D L). apply Qle_refl.
    + apply (fl_mono D L). apply Qle_shift_div_l; [reflexivity |].
      rewrite Qmult_0_l. exact H0.
  - apply Qle_trans with (fl 1).
    + apply (fl_mono D L). apply Qle_shift_div_r; [reflexivity |].
      rewrite Qmult_1_l. exact H1.
    + rewrite (fl_one D L). apply Qle_refl.
Qed.

Lemma check_range_empty (t : Tensor) :
  data t = [] -> check_range t = raise RuntimeError.
Proof.
  intros H. unfold check_range, torch_min. rewrite H. reflexivity.
Qed.

Lemma check_range_ok_inv (t : Tensor) :
  check_range t = ok tt -> data t <> [] /\ Forall in_unit (data t).
Proof.
  intros H.
  assert (Hne : data t <> []).
  { intros E. rewrite (check_range_empty t E) in H. discriminate. }
  split; [exact Hne |].
  destruct (Forall_in_unit_dec (data t)) as [Hall | Hnot]; [exact Hall |].
  rewrite (proj2 (check_range_spec t Hne) Hnot) in H. discriminate.
Qed.

(** Lines 73-75 on a non-empty image: the step succeeds and keeps shape
    and size; it divides exactly when the maximum is at least 1. *)
Lemma rescale_outcome {D : Dtype} (image : Tensor) :
  data image <> [] ->
  exists m out,
    torch_max image = ok m /\ In m (data image) /\
    Forall (fun y => (y <= m)%Q) (data image) /\
    rescale image = ok out /\
    out = (if Qle_bool 1 m then div_scalar image 255 else image) /\
    shape out = shape image /\
    length (data out) = length (data image).
Proof.
  intros Hne.
  destruct (torch_max_spec image Hne) as [m [Emax [Hin Hmax]]].
  exists m, (if Qle_bool 1 m then div_scalar image 255 else image).
  split; [exact Emax |]. split; [exact Hin |]. split; [exact Hmax |].
  split.
  { unfold rescale. rewrite Emax. simpl. destruct (Qle_bool 1 m); reflexivity. }
  split; [reflexivity |].
  destruct (Qle_bool 1 m); split; try reflexivity. simpl. apply length_map.
Qed.

(** What lines 73-75 return for an image in [0, 255] lies in [0, 1]. *)
Lemma rescale_in_unit {D : Dtype} (image out : Tensor) :
  RoundLaws D -> Forall in_byte_range (data image) ->
  rescale image = ok out -> Forall in_unit (data out).
Proof.
  intros L Hall Er.
  assert (Hne : data image <> []).
  { intros E. unfold rescale, torch_max in Er. rewrite E in Er. discriminate. }
  destruct (rescale_outcome image Hne) as [m [out' [_ [_ [Hmax [Er' [Eo _]]]]]]].
  rewrite Er in Er'. inversion Er'. subst out'. clear Er'.
  destruct (Qle_bool 1 m) eqn:E; subst out.
  - simpl. rewrite Forall_map. eapply Forall_impl; [| exact Hall].
    intros a Ha. now apply div255_in_unit.
  - assert (Hlt : (m < 1)%Q).
    { apply Qnot_le_lt. intros Le. apply Qle_bool_iff in Le. congruence. }
    rewrite Forall_forall in *. intros y Hy.
    destruct (Hall y Hy) as [H0 _]. split; [exact H0 |].
    apply Qle_trans with m; [apply Hmax, Hy | now apply Qlt_le_weak].
Qed.

Lemma rescale_nonempty {D : Dtype} (image out : Tensor) :
  rescale image = ok out ->
  data image <> [] /\ data out <> [] /\
  shape out = shape image /\ length (data out) = length (data image).
Proof.
  intros Er.
  assert (Hne : data image <> []).
  { intros E. unfold rescale, torch_max in Er. rewrite E in Er. discriminate. }
  destruct (rescale_outcome image Hne) as [m [out' [_ [_ [_ [Er' [_ [Hs Hl]]]]]]]].
  rewrite Er in Er'. inversion Er'. subst out'.
  split; [exact Hne |]. split; [| split; assumption].
  intros E. rewrite E in Hl. destruct (data image); [congruence | discriminate].
Qed.

(** The outcomes of lines 73-76 that do not depend on how the dtype
    rounds. *)
Lemma normalize_range_outcomes {D : Dtype} (image : Tensor) :
  RoundLaws D ->
  (data image = [] -> normalize_range image = raise RuntimeError) /\
  (data image <> [] -> Forall in_byte_range (data image) ->
     exists out,
       normalize_range image = ok out /\ shape out = shape image /\
       length (data out) = length (data image) /\ Forall in_unit (data out)) /\
  (data image <> [] -> Forall (fun x => (x < 1)%Q) (data image) ->
     (exists v, In v (data image) /\ (v < 0)%Q) ->
     normalize_range image = raise RangeError).
Proof.
  intros L. split; [| split].
  - intros H. unfold normalize_range, rescale, torch_max. rewrite H. reflexivity.
  - intros Hne Hall.
    destruct (rescale_outcome image Hne) as [m [out [_ [_ [_ [Er _]]]]]].
    destruct (rescale_nonempty image out Er) as [_ [Hne' [Hs Hl]]].
    pose proof (rescale_in_unit image out L Hall Er) as Hu.
    exists out. unfold normalize_range. rewrite Er. simpl.
    rewrite (proj1 (check_range_spec out Hne') Hu). simpl. auto.
  - intros Hne Hlt [v [Hv Hneg]].
    destruct (rescale_outcome image Hne) as [m [out [_ [Hin [_ [Er [Eo _]]]]]]].
    assert (E : Qle_bool 1 m = false).
    { destruct (Qle_bool 1 m) eqn:E; [| reflexivity].
      apply Qle_bool_iff in E. rewrite Forall_forall in Hlt.
      exfalso. exact (Qlt_not_le _ _ (Hlt m Hin) E). }
    rewrite E in Eo. subst out.
    unfold normalize_range. rewrite Er. simpl.
    rewrite (proj2 (check_range_spec image Hne)); [reflexivity |].
    intros Hall. rewrite Forall_forall in Hall.
    destruct (Hall v Hv) as [H0 _]. exact (Qlt_not_le _ _ Hneg H0).
Qed.

(** X3. Lines 73-76 never refuse a valid image: a non-empty image whose
    elements all lie in [0, 255] comes out with the same shape and size
    and every element in [0, 1], whatever the rounding of the division.
    An image without elements stops at [torch.max] with a RuntimeError. A
    non-empty image whose elements are all below 1 is not divided, so a
    negative element in it fails the range assertion. *)
Theorem normalize_range_accepts_byte_range {D : Dtype} (image : Tensor) :
  RoundLaws D ->
  (data image = [] -> normalize_range image = raise RuntimeError) /\
  (data image <> [] -> Forall in_byte_range (data image) ->
     exists out,
       normalize_range image = ok out /\ shape out = shape image /\
       length (data out) = length (data image) /\ Forall in_unit (data out)) /\
  (data image <> [] -> Forall (fun x => (x < 1)%Q) (data image) ->
     (exists v, In v (data image) /\ (v < 0)%Q) ->
     normalize_range image = raise RangeError).
Proof.
  intros L. split; [| split].
  - intros H. unfold normalize_range, rescale, torch_max. rewrite H. reflexivity.
  - intros Hne Hall.
    destruct (rescale_outcome image Hne) as [m [out [_ [_ [_ [Er _]]]]]].
    destruct (rescale_nonempty image out Er) as [_ [Hne' [Hs Hl]]].
    pose proof (rescale_in_unit image out L Hall Er) as Hu.
    exists out. unfold normalize_range. rewrite Er. simpl.
    rewrite (proj1 (check_range_spec out Hne') Hu). simpl. auto.
  - intros Hne Hlt [v [Hv Hneg]].
    destruct (rescale_outcome image Hne) as [m [out [_ [Hin [_ [Er [Eo _]]]]]]].
    assert (E : Qle_bool 1 m = false).
    { destruct (Qle_bool 1 m) eqn:E; [| reflexivity].
      apply Qle_bool_iff in E. rewrite Forall_forall in Hlt.
      exfalso. exact (Qlt_not_le _ _ (Hlt m Hin) E). }
    rewrite E in Eo. subst out.
    unfold normalize_range. rewrite Er. simpl.
    rewrite (proj2 (check_range_spec image Hne)); [reflexivity |].
    intros Hall. rewrite Forall_forall in Hall.
    destruct (Hall v Hv) as [H0 _]. exact (Qlt_not_le _ _ Hneg H0).
Qed.

(* ================================================================= *)
(** ** Canonicalisation as a whole (lines 66 to 76) *)

Lemma offset4_lt (B d1 d2 d3 b i j k : nat) :
  b < B -> i < d1 -> j < d2 -> k < d3 ->
  offset4 d1 d2 d3 b i j k < B * (d1 * (d2 * d3)).
Proof.
  intros Hb Hi Hj Hk. unfold offset4.
  assert (H1 : b * d1 + i < B * d1) by nia.
  assert (H2 : (b * d1 + i) * d2 + j < B * d1 * d2) by nia.
  assert (H3 : ((b * d1 + i) * d2 + j) * d3 + k < B * d1 * d2 * d3) by nia.
  lia.
Qed.

(** Every offset into a (B, d1, d2, d3) tensor is the offset of an index. *)
Lemma offset4_decompose (B d1 d2 d3 n : nat) :
  n < B * (d1 * (d2 * d3)) ->
  exists b i j k,
    b < B /\ i < d1 /\ j < d2 /\ k < d3 /\ n = offset4 d1 d2 d3 b i j k.
Proof.
  intros Hn.
  assert (H3 : d3 <> 0) by (intros ->; rewrite !Nat.mul_0_r in Hn; lia).
  assert (H2 : d2 <> 0) by (intros ->; rewrite Nat.mul_0_l, !Nat.mul_0_r in Hn; lia).
  assert (H1 : d1 <> 0) by (intros ->; rewrite Nat.mul_0_l, Nat.mul_0_r in Hn; lia).
  exists (n / d3 / d2 / d1), ((n / d3 / d2) mod d1), ((n / d3) mod d2), (n mod d3).
  split.
  { apply Nat.Div0.div_lt_upper_bound.
    apply Nat.Div0.div_lt_upper_bound.
    apply Nat.Div0.div_lt_upper_bound. lia. }
  split; [now apply Nat.mod_upper_bound |].
  split; [now apply Nat.mod_upper_bound |].
  split; [now apply Nat.mod_upper_bound |].
  unfold offset4.
  pose proof (Nat.div_mod_eq n d3) as E3.
  pose proof (Nat.div_mod_eq (n / d3) d2) as E2.
  pose proof (Nat.div_mod_eq (n / d3 / d2) d1) as E1.
  nia.
Qed.

(** [permute(0, 3, 1, 2)] moves elements and loses or invents none. *)
Lemma permute_0312_In (t t' : Tensor) (B H W C : nat) :
  shape t = [B; H; W; C] -> wf t -> permute_0312 t = ok t' ->
  forall v, In v (data t) <-> In v (data t').
Proof.
  intros Hs Hwf E v.
  destruct (permute_0312_spec t B H W C Hs) as [t'' [E' [S' [L' G]]]].
  rewrite E in E'. inversion E'. subst t''. clear E'.
  assert (L : length (data t) = B * (H * (W * C))).
  { unfold wf in Hwf. rewrite Hwf, Hs. simpl. lia. }
  split; intros Hin.
  - destruct (In_nth _ _ 0%Q Hin) as [n [Hn Hv]].
    rewrite L in Hn.
    destruct (offset4_decompose B H W C n Hn) as [b [h [w [c [Hb [Hh [Hw [Hc ->]]]]]]]].
    specialize (G b c h w Hb Hc Hh Hw). unfold get4 in G. rewrite S', Hs in G.
    rewrite <- Hv, <- G. apply nth_In. rewrite L'.
    apply offset4_lt; assumption.
  - destruct (In_nth _ _ 0%Q Hin) as [n [Hn Hv]].
    rewrite L' in Hn.
    destruct (offset4_decompose B C H W n Hn) as [b [c [h [w [Hb [Hc [Hh [Hw ->]]]]]]]].
    specialize (G b c h w Hb Hc Hh Hw). unfold get4 in G. rewrite S', Hs in G.
    rewrite <- Hv, G. apply nth_In. rewrite L.
    apply offset4_lt; assumption.
Qed.

Lemma add_batch_dim_ok (image : Tensor) :
  rank image = 3 \/ rank image = 4 ->
  exists i1, add_batch_dim image = ok i1 /\ rank i1 = 4 /\
             data i1 = data image /\ (wf image -> wf i1).
Proof.
  intros [H | H].
  - rewrite (add_batch_dim_rank3 image H). eexists. split; [reflexivity |].
    unfold rank, wf in *. simpl. repeat split; try lia.
  - rewrite add_batch_dim_other by lia. exists image. auto.
Qed.

(** Lines 70-72 on a rank-4 image never fail and keep the rank; on a
    well-formed image they keep the elements too. *)
Lemma channel_first_ok (image : Tensor) :
  rank image = 4 ->
  exists image',
    channel_first image = ok image' /\ rank image' = 4 /\
    (wf image ->
       wf image' /\ length (data image') = length (data image) /\
       forall v, In v (data image) <-> In v (data image')).
Proof.
  unfold rank. intros Hr.
  destruct (shape image) as [| d0 [| d1 [| d2 [| d3 [| ? ?]]]]] eqn:Hs; try discriminate.
  unfold channel_first. rewrite (shape_last_rank4 image _ _ _ _ Hs). simpl.
  destruct (d3 =? 3) eqn:E3.
  - apply Nat.eqb_eq in E3. subst d3.
    destruct (permute_0312_spec image d0 d1 d2 3 Hs) as [t' [E [S' [L' G]]]].
    exists t'. split; [exact E |]. split; [rewrite S'; reflexivity |].
    intros Hwf.
    assert (L : length (data image) = d0 * (d1 * (d2 * 3))).
    { unfold wf in Hwf. rewrite Hwf, Hs. simpl. lia. }
    split; [unfold wf; rewrite L', S'; simpl; lia |].
    split; [rewrite L', L; lia |].
    apply (permute_0312_In image t' d0 d1 d2 3 Hs Hwf E).
  - exists image. split; [reflexivity |]. split; [rewrite Hs; reflexivity |].
    intros Hwf. split; [exact Hwf |]. split; [reflexivity |]. tauto.
Qed.

Lemma Forall_In_equiv {A : Type} (P : A -> Prop) (l l' : list A) :
  (forall v, In v l <-> In v l') -> (Forall P l <-> Forall P l').
Proof.
  intros H. rewrite !Forall_forall. split; intros Hall v Hv; apply Hall, H, Hv.
Qed.

(** X4. What [forward] never refuses as an image: a well-formed tensor of
    rank 3 or 4 with at least one element and all elements in [0, 255]
    passes canonicalisation whatever its dimensions are and however the
    division rounds; the result has rank 4, as many elements, all of them
    in [0, 1]. Without elements the call stops at [torch.max] with a
    RuntimeError. When every element is below 1 nothing is divided, and a
    negative element fails the range assertion. *)
Theorem canonicalize_accepts_byte_range {D : Dtype} (image : Tensor) :
  RoundLaws D -> wf image -> rank image = 3 \/ rank image = 4 ->
  (data image = [] -> canonicalize image = raise RuntimeError) /\
  (data image <> [] -> Forall in_byte_range (data image) ->
     exists out,
       canonicalize image = ok out /\ rank out = 4 /\ wf out /\
       length (data out) = length (data image) /\ Forall in_unit (data out)) /\
  (data image <> [] -> Forall (fun x => (x < 1)%Q) (data image) ->
     (exists v, In v (data image) /\ (v < 0)%Q) ->
     canonicalize image = raise RangeError).
Proof.
  intros L Hwf Hr.
  destruct (add_batch_dim_ok image Hr) as [i1 [E1 [R1 [D1 W1]]]].
  destruct (channel_first_ok i1 R1) as [i2 [E2 [R2 H2]]].
  destruct (H2 (W1 Hwf)) as [W2 [L2 In2]]. rewrite D1 in L2, In2.
  assert (Ecanon : canonicalize image = normalize_range i2).
  { unfold canonicalize. rewrite E1. simpl. unfold check_rank.
    rewrite R1. simpl. rewrite E2. reflexivity. }
  assert (Hempty : data i2 = [] <-> data image = []).
  { split; intros E; apply length_zero_iff_nil;
      [rewrite <- L2 | rewrite L2]; rewrite E; reflexivity. }
  destruct (normalize_range_outcomes i2 L) as [N0 [N1 N2]].
  rewrite Ecanon. split; [| split].
  - intros E. apply N0, Hempty, E.
  - intros Hne Hall.
    destruct N1 as [out [En [Hs [Hl Hu]]]].
    + intros E. apply Hne, Hempty, E.
    + apply (Forall_In_equiv _ _ _ In2), Hall.
    + exists out. split; [exact En |].
      split; [unfold rank in *; rewrite Hs; exact R2 |].
      split; [unfold wf in *; rewrite Hl, Hs; exact W2 |].
      split; [rewrite Hl; exact L2 | exact Hu].
  - intros Hne Hlt [v [Hv Hneg]]. apply N2.
    + intros E. apply Hne, Hempty, E.
    + apply (Forall_In_equiv _ _ _ In2), Hlt.
    + exists v. split; [apply In2, Hv | exact Hneg].
Qed.

Lemma rbind_ok_inv {A B : Type} (m : result A) (k : A -> result B) (b : B) :
  rbind m k = ok b -> exists a, m = ok a /\ k a = ok b.
Proof.
  destruct m as [e | a]; simpl; [discriminate |].
  intros H. exists a. split; [reflexivity | exact H].
Qed.

Lemma check_rank_ok_inv (image : Tensor) :
  check_rank image = ok tt -> rank image = 4.
Proof.
  unfold check_rank, assert. destruct (rank image =? 4) eqn:E; [| discriminate].
  intros _. now apply Nat.eqb_eq.
Qed.

Lemma add_batch_dim_ok_inv (image i1 : Tensor) :
  add_batch_dim image = ok i1 -> rank i1 = 4 ->
  (rank image = 3 \/ rank image = 4) /\ data i1 = data image /\ (wf image -> wf i1).
Proof.
  intros E R.
  destruct (Nat.eq_dec (rank image) 3) as [H3 | H3].
  - rewrite (add_batch_dim_rank3 image H3) in E. inversion E. subst i1.
    split; [now left |]. split; [reflexivity |].
    unfold wf. simpl. lia.
  - rewrite (add_batch_dim_other image H3) in E. inversion E. subst i1. auto.
Qed.

Lemma normalize_range_ok_inv {D : Dtype} (image out : Tensor) :
  normalize_range image = ok out ->
  shape out = shape image /\ length (data out) = length (data image) /\
  data out <> [] /\ Forall in_unit (data out).
Proof.
  intros H. unfold normalize_range in H.
  apply rbind_ok_inv in H. destruct H as [r [Er H]].
  apply rbind_ok_inv in H. destruct H as [[] [Ec H]].
  inversion H. subst r. clear H.
  destruct (check_range_ok_inv out Ec) as [Hne Hall].
  destruct (rescale_nonempty image out Er) as [_ [_ [Hs Hl]]]. auto.
Qed.


(** X5. What canonicalisation hands to the preprocessing step: whenever it
    succeeds, the image had rank 3 or 4, the result has rank 4, is not
    empty, and every element of it lies in [0, 1]; a well-formed image gives
    a well-formed result with as many elements. *)
Theorem canonicalize_postcondition {D : Dtype} (image out : Tensor) :
  canonicalize image = ok out ->
  (rank image = 3 \/ rank image = 4) /\
  rank out = 4 /\ data out <> [] /\ Forall in_unit (data out) /\
  (wf image -> wf out /\ length (data out) = length (data image)).
Proof.
  intros H. unfold canonicalize in H.
  apply rbind_ok_inv in H. destruct H as [i1 [E1 H]].
  apply rbind_ok_inv in H. destruct H as [[] [Ec H]].
  apply rbind_ok_inv in H. destruct H as [i2 [E2 H]].
  pose proof (check_rank_ok_inv i1 Ec) as R1.
  destruct (add_batch_dim_ok_inv image i1 E1 R1) as [Hr [D1 W1]].
  destruct (channel_first_ok i1 R1) as [i2' [E2' [R2 H2]]].
  rewrite E2 in E2'. inversion E2'. subst i2'. clear E2'.
  destruct (normalize_range_ok_inv i2 out H) as [Hs [Hl [Hne Hall]]].
  split; [exact Hr |].
  split; [unfold rank in *; rewrite Hs; exact R2 |].
  split; [exact Hne |]. split; [exact Hall |].
  intros Hwf. destruct (H2 (W1 Hwf)) as [W2 [L2 _]].
  split; [unfold wf in *; rewrite Hl, Hs; exact W2 |].
  rewrite Hl, L2, D1. reflexivity.
Qed.



(** The two dtypes keep the rounding laws. *)
Lemma exact_arithmetic_laws : RoundLaws exact_arithmetic.
Proof.
  split; simpl.
  - intros x y H. exact H.
  - reflexivity.
  - reflexivity.
Qed.

Lemma round_to_grid_mono (k : positive) (x y : Q) :
  (x <= y)%Q -> (round_to_grid k x <= round_to_grid k y)%Q.
Proof.
  intros H. unfold round_to_grid, Qdiv.
  apply Qmult_le_compat_r; [| apply Qinv_le_0_compat; discriminate].
  rewrite <- Zle_Qle. apply Qfloor_resp_le.
  apply Qplus_le_compat; [| apply Qle_refl].
  apply Qmult_le_compat_r; [exact H | discriminate].
Qed.

Lemma subnormal_grid_laws : RoundLaws subnormal_grid.
Proof.
  split.
  - intros x y H. exact (round_to_grid_mono (2 ^ 149) x y H).
  - vm_compute. reflexivity.
  - vm_compute. reflexivity.
Qed.

Lemma normalize_range_accepts_byte_range_witness :
  exists out,
    normalize_range Examples.raw_chw = ok out /\ shape out = [1; 3; 2; 2] /\
    length (data out) = 12 /\ Forall in_unit (data out).
Proof.
  apply (proj1 (proj2 (normalize_range_accepts_byte_range Examples.raw_chw
                         exact_arithmetic_laws))).
  - discriminate.
  - repeat constructor; discriminate.
Defined.

Lemma canonicalize_accepts_byte_range_witness :
  exists out,
    canonicalize Examples.raw_nhwc = ok out /\ rank out = 4 /\ wf out /\
    length (data out) = 12 /\ Forall in_unit (data out).
Proof.
  apply (proj1 (proj2 (canonicalize_accepts_byte_range Examples.raw_nhwc
                         exact_arithmetic_laws eq_refl (or_intror eq_refl)))).
  - discriminate.
  - repeat constructor; discriminate.
Defined.

Lemma canonicalize_postcondition_witness :
  (rank Examples.raw_nhwc = 3 \/ rank Examples.raw_nhwc = 4) /\
  rank (div_scalar Examples.raw_chw 255) = 4 /\
  data (div_scalar Examples.raw_chw 255) <> [] /\
  Forall in_unit (data (div_scalar Examples.raw_chw 255)) /\
  (wf Examples.raw_nhwc ->
     wf (div_scalar Examples.raw_chw 255) /\
     length (data (div_scalar Examples.raw_chw 255)) = length (data Examples.raw_nhwc)).
Proof.
  apply (canonicalize_postcondition Examples.raw_nhwc (div_scalar Examples.raw_chw 255)).
  reflexivity.
Defined.


(** The raw image holds a 255, so its canonical form holds a 1 and a second
    pass divides it again. *)
Example canonicalize_twice_run :
  canonicalize (div_scalar Examples.raw_chw 255)
  = ok (div_scalar (div_scalar Examples.raw_chw 255) 255).
Proof. reflexivity. Qed.

(* ================================================================= *)
(** ** The stages of [forward], one after the other *)

Lemma check_passes_ok (self : FilmEfficientNetEncoder) (context : option Tensor) :
  check_passes self context ->
  (if include_top self
   then assert (match context with None => true | Some _ => false end)
               ContextWithIncludeTop
   else ok tt) = ok tt.
Proof.
  unfold check_passes. destruct (include_top self); [| reflexivity].
  destruct context; [discriminate | reflexivity].
Qed.

Lemma forward_unfold {D : Dtype} (preprocess : Tensor -> result Tensor)
    (self : FilmEfficientNetEncoder) (image : Tensor) (context : option Tensor) :
  forward preprocess self image context
  = (let* _ := lift (if include_top self
                     then assert (match context with None => true | Some _ => false end)
                                 ContextWithIncludeTop
                     else ok tt) in
     let* x := lift (canonicalize image) in
     let* p := call (CallPreprocess x) (preprocess x) in
     let* feat := call (CallNet p context) (net self p context) in
     after_backbone self context feat).
Proof. reflexivity. Qed.

Lemma forward_after_net {D : Dtype} (preprocess : Tensor -> result Tensor)
    (self : FilmEfficientNetEncoder) (image : Tensor) (context : option Tensor)
    (x p feat : Tensor) :
  check_passes self context ->
  canonicalize image = ok x -> preprocess x = ok p ->
  net self p context = ok feat ->
  forward preprocess self image context
  = (CallPreprocess x :: CallNet p context :: fst (after_backbone self context feat),
     snd (after_backbone self context feat)).
Proof.
  intros Hc Hx Hp Hn. rewrite forward_unfold, (check_passes_ok self context Hc).
  rewrite bind_lift_ok, Hx, bind_lift_ok, Hp, bind_call_ok, Hn, !bind_call_ok.
  reflexivity.
Qed.

Lemma reduce_log (pooling : bool) (f : Tensor) : fst (reduce pooling f) = [].
Proof.
  unfold reduce. destruct pooling.
  - destruct (avg_pool2d_full f) as [e | g]; [reflexivity |].
    rewrite bind_lift_ok. reflexivity.
  - rewrite bind_ret. reflexivity.
Qed.

Lemma unsqueeze_eta (feat f2 f3 : Tensor) (B C : nat) :
  shape feat = [B; C] -> unsqueeze 2 feat = ok f2 -> unsqueeze 3 f2 = ok f3 ->
  f3 = {| shape := [B; C; 1; 1]; data := data feat |}.
Proof.
  intros Hs E2 E3.
  destruct (unsqueeze_2_3 feat B C Hs) as [g2 [g3 [G2 [G3 [S3 D3]]]]].
  rewrite E2 in G2. inversion G2. subst g2.
  rewrite E3 in G3. inversion G3. subst g3.
  rewrite <- S3, <- D3. symmetry. apply tensor_eta.
Qed.

(** Lines 82 to 94 on a (B, C) summary and a context: the projector and the
    FiLM layer are called on the (B, C, 1, 1) map, and the rest depends on
    what they return. *)
Lemma after_backbone_conditioned (self : FilmEfficientNetEncoder) (c feat : Tensor)
    (B C : nat) :
  shape feat = [B; C] ->
  after_backbone self (Some c) feat
  = (let f3 := {| shape := [B; C; 1; 1]; data := data feat |} in
     let* fc := call (CallConv1x1 f3) (conv2d (conv1x1 self) f3) in
     let* y := call (CallFilmLayer fc c) (film_forward (film_layer self) fc c) in
     reduce (_pooling self) y).
Proof.
  intros Hs.
  destruct (unsqueeze_2_3 feat B C Hs) as [f2 [f3 [E2 [E3 _]]]].
  pose proof (unsqueeze_eta feat f2 f3 B C Hs E2 E3) as Ef.
  unfold after_backbone. rewrite E2, bind_lift_ok, E3, bind_lift_ok, Ef.
  cbv zeta. rewrite bind_assoc. reflexivity.
Qed.

Section Stages.

Context {D : Dtype}.
Variable preprocess : Tensor -> result Tensor.

(** X7. The conditioned path (lines 80 to 94). When the check of line 65
    passes, the image is canonicalised to [x], preprocessed to [p], and the
    backbone returns a (B, C) summary with C the projector's input width,
    the projector succeeds on the (B, C, 1, 1) map and gives a
    (B, out, 1, 1) map [fc]. The call then makes exactly four calls, in the
    order preprocess, net, conv1x1, film_layer. An exception of the FiLM
    layer is the call's exception; a FiLM result of the shape of [fc] is
    returned as a (B, out) tensor with the same elements. *)
Theorem forward_with_context (self : FilmEfficientNetEncoder)
    (image c x p feat : Tensor) (B : nat) :
  check_passes self (Some c) ->
  canonicalize image = ok x -> preprocess x = ok p ->
  net self p (Some c) = ok feat ->
  shape feat = [B; in_channels (conv1x1 self)] ->
  exists fc,
    conv2d (conv1x1 self)
      {| shape := [B; in_channels (conv1x1 self); 1; 1]; data := data feat |} = ok fc /\
    shape fc = [B; out_channels (conv1x1 self); 1; 1] /\ wf fc /\
    (forall e, film_forward (film_layer self) fc c = raise e ->
       forward preprocess self image (Some c)
       = ([CallPreprocess x; CallNet p (Some c);
           CallConv1x1 {| shape := [B; in_channels (conv1x1 self); 1; 1];
                          data := data feat |};
           CallFilmLayer fc c], raise e)) /\
    (forall y, film_forward (film_layer self) fc c = ok y ->
       shape y = shape fc -> wf y ->
       (_pooling self = true -> 0 < out_channels (conv1x1 self)) ->
       forward preprocess self image (Some c)
       = ([CallPreprocess x; CallNet p (Some c);
           CallConv1x1 {| shape := [B; in_channels (conv1x1 self); 1; 1];
                          data := data feat |};
           CallFilmLayer fc c],
          ok {| shape := [B; out_channels (conv1x1 self)]; data := data y |})).
Proof.
  intros Hc Hx Hp Hn Hs.
  set (f3 := {| shape := [B; in_channels (conv1x1 self); 1; 1]; data := data feat |}).
  destruct (conv2d_rank4 (conv1x1 self) f3 B (in_channels (conv1x1 self)) 1 1
              eq_refl eq_refl) as [fc [Ec [Sc Wc]]]; try lia.
  exists fc. split; [exact Ec |]. split; [exact Sc |]. split; [exact Wc |].
  rewrite (forward_after_net preprocess self image (Some c) x p feat Hc Hx Hp Hn).
  rewrite (after_backbone_conditioned self c feat B _ Hs).
  cbv zeta. fold f3. rewrite Ec, !bind_call_ok.
  split.
  - intros e Ef. rewrite Ef, !bind_call_raise. reflexivity.
  - intros y Ef Sy Wy Hout. rewrite Ef, !bind_call_ok.
    rewrite Sc in Sy.
    assert (Er : reduce (_pooling self) y
                 = ret {| shape := [B; out_channels (conv1x1 self)]; data := data y |}).
    { destruct (_pooling self) eqn:Epool.
      - apply (reduce_1x1 true y B _ Sy Wy (Hout eq_refl)).
      - unfold reduce. rewrite bind_ret, (flatten1_1x1 y B _ Sy). reflexivity. }
    rewrite Er. reflexivity.
Qed.

(** X8. A context with a backbone of another width. When the backbone
    returns a (B, C) summary and C is not the projector's input width, the
    call fails with the RuntimeError of the convolution; the FiLM layer is
    not called. *)
Theorem forward_projector_rejects_other_widths (self : FilmEfficientNetEncoder)
    (image c x p feat : Tensor) (B C : nat) :
  check_passes self (Some c) ->
  canonicalize image = ok x -> preprocess x = ok p ->
  net self p (Some c) = ok feat ->
  shape feat = [B; C] -> C <> in_channels (conv1x1 self) ->
  forward preprocess self image (Some c)
  = ([CallPreprocess x; CallNet p (Some c);
      CallConv1x1 {| shape := [B; C; 1; 1]; data := data feat |}],
     raise RuntimeError).
Proof.
  intros Hc Hx Hp Hn Hs HC.
  rewrite (forward_after_net preprocess self image (Some c) x p feat Hc Hx Hp Hn).
  rewrite (after_backbone_conditioned self c feat B C Hs).
  cbv zeta.
  rewrite (conv2d_rank4_mismatch (conv1x1 self)
             {| shape := [B; C; 1; 1]; data := data feat |} B C 1 1 eq_refl HC).
  rewrite !bind_call_raise. reflexivity.
Qed.

(** X9. Nothing is caught. When the check of line 65 passes, an exception
    of canonicalisation, of the preprocessing transform or of the backbone
    is the exception of the call, and no later stage is called. *)
Theorem forward_surfaces_stage_errors (self : FilmEfficientNetEncoder)
    (image : Tensor) (context : option Tensor) :
  check_passes self context ->
  (forall e, canonicalize image = raise e ->
     forward preprocess self image context = ([], raise e)) /\
  (forall x e, canonicalize image = ok x -> preprocess x = raise e ->
     forward preprocess self image context = ([CallPreprocess x], raise e)) /\
  (forall x p e, canonicalize image = ok x -> preprocess x = ok p ->
     net self p context = raise e ->
     forward preprocess self image context
     = ([CallPreprocess x; CallNet p context], raise e)).
Proof.
  intros Hc. rewrite forward_unfold, (check_passes_ok self context Hc), bind_lift_ok.
  split; [| split].
  - intros e Hx. rewrite Hx. reflexivity.
  - intros x e Hx Hp. rewrite Hx, bind_lift_ok, Hp. reflexivity.
  - intros x p e Hx Hp Hn.
    rewrite Hx, bind_lift_ok, Hp, bind_call_ok, Hn, !bind_call_raise. reflexivity.
Qed.

(** X10. Whatever the backbone and the FiLM layer return and whatever the
    pooling flag is, a call that succeeds returns a tensor of rank 2: the
    flattening of line 94 is unconditional. *)
Theorem forward_returns_rank2 (self : FilmEfficientNetEncoder)
    (image : Tensor) (context : option Tensor) (out : Tensor) :
  snd (forward preprocess self image context) = ok out -> rank out = 2.
Proof.
  intros H. rewrite forward_split in H.
  apply snd_bind_ok in H. destruct H as [f [_ H]].
  unfold reduce in H.
  apply snd_bind_ok in H. destruct H as [g [_ H]].
  simpl in H. unfold flatten1 in H.
  destruct (shape g) as [| d0 [| d1 ds]]; try discriminate.
  inversion H. reflexivity.
Qed.

(** X11. A backbone output of rank 0 or 1 cannot get its two spatial
    dimensions: the call fails with the IndexError of [unsqueeze(2)] right
    after the backbone, with or without context. *)
Theorem forward_backbone_rank_below_two (self : FilmEfficientNetEncoder)
    (image : Tensor) (context : option Tensor) (x p feat : Tensor) :
  check_passes self context ->
  canonicalize image = ok x -> preprocess x = ok p ->
  net self p context = ok feat -> rank feat < 2 ->
  forward preprocess self image context
  = ([CallPreprocess x; CallNet p context], raise IndexError).
Proof.
  intros Hc Hx Hp Hn Hr.
  rewrite (forward_after_net preprocess self image context x p feat Hc Hx Hp Hn).
  unfold after_backbone, unsqueeze.
  assert (E : (2 <=? rank feat) = false) by (apply Nat.leb_gt; exact Hr).
  rewrite E. reflexivity.
Qed.

(** X12. Where pooling is not a no-op. When the backbone returns a tensor
    of rank 3 or more and there is no context, the feature map has rank 5
    or more: with [pooling=True] the call fails with the RuntimeError of
    [avg_pool2d], with [pooling=False] it returns the backbone's elements
    as a (d0, d1 * d2 * ...) tensor. *)
Theorem forward_backbone_rank_above_two (self : FilmEfficientNetEncoder)
    (image x p feat : Tensor) (d0 d1 d2 : nat) (ds : list nat) :
  canonicalize image = ok x -> preprocess x = ok p ->
  net self p None = ok feat -> shape feat = d0 :: d1 :: d2 :: ds ->
  forward preprocess self image None
  = ([CallPreprocess x; CallNet p None],
     if _pooling self then raise RuntimeError
     else ok {| shape := [d0; numel (d1 :: d2 :: ds)]; data := data feat |}).
Proof.
  intros Hx Hp Hn Hs.
  assert (Hc : check_passes self None).
  { unfold check_passes. apply andb_false_r. }
  rewrite (forward_after_net preprocess self image None x p feat Hc Hx Hp Hn).
  unfold after_backbone, unsqueeze, rank. rewrite Hs.
  cbn [length Nat.leb firstn skipn app].
  rewrite bind_lift_ok. cbn [shape data rank length Nat.leb firstn skipn app].
  rewrite bind_lift_ok, bind_ret.
  destruct (_pooling self).
  - unfold avg_pool2d_full, shape_at. cbn [shape nth_error rbind ok].
    destruct ds; reflexivity.
  - rewrite bind_ret. unfold flatten1. cbn [shape data lift fst snd].
    replace (numel (d1 :: 1 :: 1 :: d2 :: ds)) with (numel (d1 :: d2 :: ds))
      by (simpl; lia).
    reflexivity.
Qed.

End Stages.

(** The calls lines 82 to 94 make: none without context; with a context
    the projector, and the FiLM layer once the projector has succeeded. *)
Lemma after_backbone_trace (self : FilmEfficientNetEncoder) (context : option Tensor)
    (feat : Tensor) :
  match context with
  | None => fst (after_backbone self None feat) = []
  | Some c =>
      (fst (after_backbone self (Some c) feat) = [] /\
       exists e, snd (after_backbone self (Some c) feat) = raise e) \/
      (exists f e, after_backbone self (Some c) feat = ([CallConv1x1 f], raise e)) \/
      (exists f fc, conv2d (conv1x1 self) f = ok fc /\
                    fst (after_backbone self (Some c) feat)
                    = [CallConv1x1 f; CallFilmLayer fc c])
  end.
Proof.
  destruct context as [c |]; unfold after_backbone.
  - destruct (unsqueeze 2 feat) as [e | f2].
    { rewrite bind_lift_raise. left. split; [reflexivity | eexists; reflexivity]. }
    rewrite bind_lift_ok.
    destruct (unsqueeze 3 f2) as [e | f3].
    { rewrite bind_lift_raise. left. split; [reflexivity | eexists; reflexivity]. }
    rewrite bind_lift_ok, bind_assoc.
    destruct (conv2d (conv1x1 self) f3) as [e | fc] eqn:Ec.
    + rewrite bind_call_raise. right. left. eauto.
    + rewrite bind_call_ok. right. right. exists f3, fc. split; [exact Ec |].
      cbn [fst]. do 2 f_equal.
      destruct (film_forward (film_layer self) fc c) as [e | y].
      * rewrite bind_call_raise. reflexivity.
      * rewrite bind_call_ok. cbn [fst]. f_equal.
        apply (reduce_log (_pooling self) y).
  - destruct (unsqueeze 2 feat) as [e | f2]; [reflexivity |].
    rewrite bind_lift_ok.
    destruct (unsqueeze 3 f2) as [e | f3]; [reflexivity |].
    rewrite bind_lift_ok, bind_ret. apply (reduce_log (_pooling self) f3).
Qed.

Section Calls.

Context {D : Dtype}.
Variable preprocess : Tensor -> result Tensor.

(** X13. The stages are called in pipeline order, each at most once: the
    log of a call is a prefix of preprocess, net, conv1x1, film_layer.
    The transform is given the canonicalised image, the backbone the
    transform's result and the caller's context, the FiLM layer the
    projector's result; the projector and the FiLM layer appear only when a
    context is passed. *)
Theorem forward_calls_in_order (self : FilmEfficientNetEncoder)
    (image : Tensor) (context : option Tensor) :
  fst (forward preprocess self image context) = [] \/
  exists x,
    canonicalize image = ok x /\
    (fst (forward preprocess self image context) = [CallPreprocess x] \/
     exists p,
       preprocess x = ok p /\
       (fst (forward preprocess self image context)
        = [CallPreprocess x; CallNet p context] \/
        exists c f,
          context = Some c /\
          (fst (forward preprocess self image context)
           = [CallPreprocess x; CallNet p context; CallConv1x1 f] \/
           exists fc,
             conv2d (conv1x1 self) f = ok fc /\
             fst (forward preprocess self image context)
             = [CallPreprocess x; CallNet p context; CallConv1x1 f;
                CallFilmLayer fc c]))).
Proof.
  rewrite forward_unfold.
  destruct (if include_top self
            then assert (match context with None => true | Some _ => false end)
                        ContextWithIncludeTop
            else ok tt) as [e | u].
  { left. reflexivity. }
  rewrite bind_lift_ok.
  destruct (canonicalize image) as [e | x] eqn:Hx.
  { left. reflexivity. }
  rewrite bind_lift_ok. right. exists x. split; [reflexivity |].
  destruct (preprocess x) as [e | p] eqn:Hp.
  { left. reflexivity. }
  rewrite bind_call_ok. right. exists p. split; [reflexivity |].
  destruct (net self p context) as [e | feat] eqn:Hn.
  { left. reflexivity. }
  rewrite !bind_call_ok. cbn [fst].
  pose proof (after_backbone_trace self context feat) as T.
  destruct context as [c |].
  - destruct T as [[T _] | [[f [e T]] | [f [fc [Ec T]]]]].
    + left. rewrite T. reflexivity.
    + right. exists c, f. split; [reflexivity |]. left. rewrite T. reflexivity.
    + right. exists c, f. split; [reflexivity |]. right.
      exists fc. split; [exact Ec |]. rewrite T. reflexivity.
  - left. rewrite T. reflexivity.
Qed.

(** X14. A call that returns a tensor has called every stage of its path
    exactly once: the transform and the backbone without context; the
    transform, the backbone, the projector and the FiLM layer with one. *)
Theorem forward_success_calls_every_stage (self : FilmEfficientNetEncoder)
    (image : Tensor) (context : option Tensor) (out : Tensor) :
  snd (forward preprocess self image context) = ok out ->
  exists x p,
    canonicalize image = ok x /\ preprocess x = ok p /\
    match context with
    | None =>
        fst (forward preprocess self image None)
        = [CallPreprocess x; CallNet p None]
    | Some c =>
        exists f fc,
          conv2d (conv1x1 self) f = ok fc /\
          fst (forward preprocess self image (Some c))
          = [CallPreprocess x; CallNet p (Some c); CallConv1x1 f; CallFilmLayer fc c]
    end.
Proof.
  intros H. pose proof H as H0. rewrite forward_unfold in H.
  apply snd_bind_ok in H. destruct H as [u [Hu H]].
  apply snd_bind_ok in H. destruct H as [x [Hx H]].
  apply snd_bind_ok in H. destruct H as [p [Hp H]].
  apply snd_bind_ok in H. destruct H as [feat [Hn H]].
  simpl in Hu, Hx, Hp, Hn.
  assert (Hc : check_passes self context).
  { unfold check_passes. destruct (include_top self); [| reflexivity].
    destruct context; [discriminate | reflexivity]. }
  exists x, p. split; [exact Hx |]. split; [exact Hp |].
  pose proof (forward_after_net preprocess self image context x p feat Hc Hx Hp Hn) as E.
  pose proof (after_backbone_trace self context feat) as T.
  destruct context as [c |].
  - destruct T as [[_ [e T]] | [[f [e T]] | [f [fc [Ec T]]]]].
    + rewrite T in H. discriminate.
    + rewrite T in H. discriminate.
    + exists f, fc. split; [exact Ec |]. rewrite E, T. reflexivity.
  - rewrite E, T. reflexivity.
Qed.

End Calls.

(* ================================================================= *)
(** ** Construction *)

Section ConstructionOutcomes.

Variable filmefficientnet_b3 : bool -> option string -> result Backbone.
Variable FilmConditioning_forward : nat -> Tensor -> Tensor -> result Tensor.
Variable kaiming_normal : nat -> nat -> Q.

(** X1. Construction succeeds exactly when the variant is "b3", no extra
    keyword argument is passed and the backbone factory succeeds on the
    given [include_top] and [weights]; the encoder then holds that
    backbone, the two flags as passed, the 1536-to-512 projector with the
    drawn weights and a FiLM layer of 512 channels. *)
Theorem init_succeeds_iff (model_variant : string) (weights : option string)
    (include_top pooling : bool) (kwargs : list string)
    (self : FilmEfficientNetEncoder) :
  __init__ filmefficientnet_b3 FilmConditioning_forward kaiming_normal
      model_variant weights include_top pooling kwargs = ok self
  <->
  (model_variant = "b3"%string /\ kwargs = [] /\
   exists n,
     filmefficientnet_b3 include_top weights = ok n /\
     self = {| net := n;
               include_top := include_top;
               conv1x1 := {| in_channels := 1536; out_channels := 512;
                             weight := kaiming_normal |};
               film_layer := {| num_channels := 512;
                                film_forward := FilmConditioning_forward 512 |};
               _pooling := pooling |}).
Proof.
  split.
  - intros H.
    destruct (init_inv _ _ _ _ _ _ _ _ _ H) as [n [Hn [Hv [Hk Hs]]]].
    split; [exact Hv |]. split; [exact Hk |]. exists n. auto.
  - intros [-> [-> [n [Hn ->]]]].
    unfold __init__. simpl. rewrite Hn. reflexivity.
Qed.

(** X2. How construction fails, in this order: an extra keyword argument
    is a TypeError of [nn.Module.__init__], whatever the variant; otherwise
    a variant other than "b3" is the ValueError "Unknown variant ...",
    whatever the factory would do; otherwise an exception of the backbone
    factory is the exception of the construction. *)
Theorem init_failures (model_variant : string) (weights : option string)
    (include_top pooling : bool) (kwargs : list string) :
  (kwargs <> [] ->
     __init__ filmefficientnet_b3 FilmConditioning_forward kaiming_normal
         model_variant weights include_top pooling kwargs = raise TypeError) /\
  (kwargs = [] -> model_variant <> "b3"%string ->
     __init__ filmefficientnet_b3 FilmConditioning_forward kaiming_normal
         model_variant weights include_top pooling kwargs
     = raise (ValueError (String.append "Unknown variant " model_variant))) /\
  (forall e, kwargs = [] -> model_variant = "b3"%string ->
     filmefficientnet_b3 include_top weights = raise e ->
     __init__ filmefficientnet_b3 FilmConditioning_forward kaiming_normal
         model_variant weights include_top pooling kwargs = raise e).
Proof.
  split; [| split].
  - intros Hk. destruct kwargs; [congruence | reflexivity].
  - intros -> Hv. unfold __init__. simpl.
    apply String.eqb_neq in Hv. rewrite Hv. reflexivity.
  - intros e -> -> He. unfold __init__. simpl. rewrite He. reflexivity.
Qed.

End ConstructionOutcomes.

(* ================================================================= *)
(** ** The stage theorems on concrete encoders *)

Lemma forward_with_context_witness :
  exists fc,
    conv2d (mkConv2d 1536 512 Examples.toy_weight)
      {| shape := [1; 1536; 1; 1]; data := data (Examples.toy_summary 1536) |} = ok fc /\
    shape fc = [1; 512; 1; 1] /\ wf fc.
Proof.
  assert (Hc : check_passes (Examples.toy_encoder 1536 false false)
                 (Some Examples.toy_context)) by reflexivity.
  assert (Hx : canonicalize (D := exact_arithmetic) Examples.raw_nhwc
               = ok Examples.canonical_raw) by reflexivity.
  assert (Hp : Examples.toy_preprocess Examples.canonical_raw
               = ok Examples.canonical_raw) by reflexivity.
  assert (Hn : net (Examples.toy_encoder 1536 false false) Examples.canonical_raw
                 (Some Examples.toy_context) = ok (Examples.toy_summary 1536))
    by reflexivity.
  assert (Hs : shape (Examples.toy_summary 1536)
               = [1; in_channels (conv1x1 (Examples.toy_encoder 1536 false false))])
    by reflexivity.
  destruct (forward_with_context (D := exact_arithmetic) Examples.toy_preprocess
              (Examples.toy_encoder 1536 false false)
              Examples.raw_nhwc Examples.toy_context
              Examples.canonical_raw Examples.canonical_raw
              (Examples.toy_summary 1536) 1 Hc Hx Hp Hn Hs)
    as [fc [Ec [Sc [Wc _]]]].
  exists fc. split; [exact Ec |]. split; [exact Sc | exact Wc].
Defined.

Lemma forward_projector_rejects_other_widths_witness :
  forward Examples.toy_preprocess (Examples.toy_encoder 4 false true)
    Examples.raw_nhwc (Some Examples.toy_context)
  = ([CallPreprocess Examples.canonical_raw;
      CallNet Examples.canonical_raw (Some Examples.toy_context);
      CallConv1x1 {| shape := [1; 4; 1; 1]; data := data (Examples.toy_summary 4) |}],
     raise RuntimeError).
Proof.
  apply (forward_projector_rejects_other_widths Examples.toy_preprocess
           (Examples.toy_encoder 4 false true)
           Examples.raw_nhwc Examples.toy_context
           Examples.canonical_raw Examples.canonical_raw (Examples.toy_summary 4) 1 4).
  - reflexivity.
  - reflexivity.
  - reflexivity.
  - reflexivity.
  - reflexivity.
  - discriminate.
Defined.

Lemma forward_surfaces_stage_errors_witness :
  forward Examples.toy_preprocess (Examples.toy_encoder 4 false false)
    {| shape := [1; 1; 1; 2]; data := [300; 10]%Q |} None
  = ([], raise RangeError).
Proof.
  apply (proj1 (forward_surfaces_stage_errors Examples.toy_preprocess
                  (Examples.toy_encoder 4 false false)
                  {| shape := [1; 1; 1; 2]; data := [300; 10]%Q |} None eq_refl)).
  reflexivity.
Defined.

Lemma forward_returns_rank2_witness :
  rank {| shape := [1; 4]; data := [0 # 255; 1 # 510; 1 # 1020; 1 # 255]%Q |} = 2.
Proof.
  apply (forward_returns_rank2 Examples.toy_preprocess
           (Examples.toy_encoder 4 false false) Examples.white_nchw None).
  reflexivity.
Defined.

Lemma forward_backbone_rank_below_two_witness :
  forward Examples.toy_preprocess (Examples.encoder_with Examples.vector_net false false)
    Examples.raw_nhwc None
  = ([CallPreprocess Examples.canonical_raw; CallNet Examples.canonical_raw None],
     raise IndexError).
Proof.
  apply (forward_backbone_rank_below_two Examples.toy_preprocess
           (Examples.encoder_with Examples.vector_net false false)
           Examples.raw_nhwc None Examples.canonical_raw Examples.canonical_raw
           {| shape := [12]; data := data Examples.canonical_raw |}).
  - reflexivity.
  - reflexivity.
  - reflexivity.
  - reflexivity.
  - unfold rank. simpl. lia.
Defined.

Lemma forward_backbone_rank_above_two_witness :
  forward Examples.toy_preprocess (Examples.encoder_with Examples.identity_net false true)
    Examples.raw_nhwc None
  = ([CallPreprocess Examples.canonical_raw; CallNet Examples.canonical_raw None],
     raise RuntimeError) /\
  forward Examples.toy_preprocess (Examples.encoder_with Examples.identity_net false false)
    Examples.raw_nhwc None
  = ([CallPreprocess Examples.canonical_raw; CallNet Examples.canonical_raw None],
     ok {| shape := [1; 12]; data := data Examples.canonical_raw |}).
Proof.
  split.
  - apply (forward_backbone_rank_above_two Examples.toy_preprocess
             (Examples.encoder_with Examples.identity_net false true)
             Examples.raw_nhwc Examples.canonical_raw Examples.canonical_raw
             Examples.canonical_raw 1 3 2 [2]); reflexivity.
  - apply (forward_backbone_rank_above_two Examples.toy_preprocess
             (Examples.encoder_with Examples.identity_net false false)
             Examples.raw_nhwc Examples.canonical_raw Examples.canonical_raw
             Examples.canonical_raw 1 3 2 [2]); reflexivity.
Defined.

Lemma forward_success_calls_every_stage_witness :
  exists x p,
    canonicalize Examples.white_nchw = ok x /\ Examples.toy_preprocess x = ok p /\
    fst (forward Examples.toy_preprocess (Examples.toy_encoder 4 false false)
           Examples.white_nchw None)
    = [CallPreprocess x; CallNet p None].
Proof.
  apply (forward_success_calls_every_stage Examples.toy_preprocess
           (Examples.toy_encoder 4 false false) Examples.white_nchw None
           {| shape := [1; 4]; data := [0 # 255; 1 # 510; 1 # 1020; 1 # 255]%Q |}).
  reflexivity.
Defined.

(* ================================================================= *)
(** ** What canonicalisation does inside [forward] *)

Lemma canonicalize_split {D : Dtype} (image : Tensor) :
  canonicalize image = (let? laid := canonical_layout image in normalize_range laid).
Proof.
  unfold canonicalize, canonical_layout.
  destruct (add_batch_dim image) as [e | i1]; [reflexivity |]. cbn [rbind ok].
  destruct (check_rank i1) as [e | u]; [reflexivity |]. cbn [rbind ok].
  destruct (channel_first i1) as [e | i2]; reflexivity.
Qed.

(** Lines 66-72 on a well-formed image of rank 3 or 4 succeed and keep
    every element. *)
Lemma canonical_layout_ok (image : Tensor) :
  wf image -> rank image = 3 \/ rank image = 4 ->
  exists laid,
    canonical_layout image = ok laid /\ rank laid = 4 /\ wf laid /\
    length (data laid) = length (data image) /\
    (forall v, In v (data image) <-> In v (data laid)).
Proof.
  intros Hwf Hr.
  destruct (add_batch_dim_ok image Hr) as [i1 [E1 [R1 [D1 W1]]]].
  destruct (channel_first_ok i1 R1) as [i2 [E2 [R2 H2]]].
  destruct (H2 (W1 Hwf)) as [W2 [L2 In2]]. rewrite D1 in L2, In2.
  exists i2. unfold canonical_layout. rewrite E1. cbn [rbind ok].
  unfold check_rank. rewrite R1. cbn [Nat.eqb assert rbind ok].
  auto.
Qed.



(** What lines 73-76 return is the image or its quotient. *)
Lemma normalize_range_ok_cases {D : Dtype} (image out : Tensor) :
  normalize_range image = ok out ->
  shape out = shape image /\ (out = image \/ out = div_scalar image 255).
Proof.
  intros H. unfold normalize_range in H.
  apply rbind_ok_inv in H. destruct H as [r [Er H]].
  apply rbind_ok_inv in H. destruct H as [[] [_ H]].
  inversion H. subst r. clear H.
  destruct (rescale_nonempty image out Er) as [Hne [_ [Hs _]]].
  split; [exact Hs |].
  destruct (rescale_outcome image Hne) as [m [out' [_ [_ [_ [Er' [Eo _]]]]]]].
  rewrite Er in Er'. inversion Er'. subst out'.
  destruct (Qle_bool 1 m); auto.
Qed.

(** The transform is the first stage [forward] calls, on the canonicalised
    image; when canonicalisation fails nothing is called. *)
Lemma forward_hands_over {D : Dtype} (preprocess : Tensor -> result Tensor)
    (self : FilmEfficientNetEncoder) (image : Tensor) (context : option Tensor)
    (x : Tensor) :
  check_passes self context -> canonicalize image = ok x ->
  exists l, fst (forward preprocess self image context) = CallPreprocess x :: l.
Proof.
  intros Hc Hx.
  rewrite forward_unfold, (check_passes_ok self context Hc), bind_lift_ok.
  rewrite Hx, bind_lift_ok.
  destruct (preprocess x) as [e | p].
  - rewrite bind_call_raise. eexists. reflexivity.
  - rewrite bind_call_ok. eexists. reflexivity.
Qed.

Lemma forward_canonicalize_raise {D : Dtype} (preprocess : Tensor -> result Tensor)
    (self : FilmEfficientNetEncoder) (image : Tensor) (context : option Tensor)
    (e : exn) :
  check_passes self context -> canonicalize image = raise e ->
  forward preprocess self image context = ([], raise e).
Proof.
  intros Hc Hx.
  rewrite forward_unfold, (check_passes_ok self context Hc), bind_lift_ok.
  rewrite Hx. reflexivity.
Qed.

(** C1. Let the call pass the check of line 65 and the image be a
    well-formed tensor of rank 3 or 4 with an element >= 1.0. Then lines
    66-72 give it its canonical layout and line 75 divides every element
    by 255.0. When every quotient lies in [0, 1], canonicalisation returns
    the quotient tensor, its maximum is at most 1.0, and this tensor is
    what [forward] hands to the preprocessing transform. When some quotient
    lies outside [0, 1], canonicalisation and the call fail with the range
    assertion of line 76, and no stage has run. *)
Theorem forward_rescales_raw_image {D : Dtype} (preprocess : Tensor -> result Tensor)
    (self : FilmEfficientNetEncoder) (image : Tensor) (context : option Tensor) :
  wf image -> rank image = 3 \/ rank image = 4 ->
  (exists x, In x (data image) /\ (1 <= x)%Q) ->
  check_passes self context ->
  exists laid,
    canonical_layout image = ok laid /\
    data (div_scalar laid 255) = map (fun x => fl (x / 255)%Q) (data laid) /\
    (Forall in_unit (data (div_scalar laid 255)) ->
       canonicalize image = ok (div_scalar laid 255) /\
       (exists m, torch_max (div_scalar laid 255) = ok m /\ (m <= 1)%Q) /\
       exists l, fst (forward preprocess self image context)
                 = CallPreprocess (div_scalar laid 255) :: l) /\
    (~ Forall in_unit (data (div_scalar laid 255)) ->
       canonicalize image = raise RangeError /\
       forward preprocess self image context = ([], raise RangeError)).
Proof.
  intros Hwf Hr [x [Hx H1]] Hc.
  destruct (canonical_layout_ok image Hwf Hr) as [laid [El [_ [_ [_ Hin]]]]].
  exists laid. split; [exact El |]. split; [reflexivity |].
  assert (Hx' : exists v, In v (data laid) /\ (1 <= v)%Q).
  { exists x. split; [apply Hin, Hx | exact H1]. }
  destruct (normalize_range_rescaled laid Hx') as [_ [Hok Hko]].
  assert (Ec : canonicalize image = normalize_range laid).
  { rewrite canonicalize_split, El. reflexivity. }
  split.
  - intros Hall. rewrite Ec, (Hok Hall).
    split; [reflexivity |]. split.
    + assert (Hne : data (div_scalar laid 255) <> []).
      { apply div_scalar_nonempty. intros E.
        destruct Hx' as [v [Hv _]]. rewrite E in Hv. exact Hv. }
      destruct (torch_max_spec _ Hne) as [m [Em [Hm _]]].
      exists m. split; [exact Em |].
      rewrite Forall_forall in Hall. apply (Hall m Hm).
    + apply forward_hands_over; [exact Hc |]. rewrite Ec. apply Hok, Hall.
  - intros Hnot. rewrite Ec, (Hko Hnot).
    split; [reflexivity |].
    apply forward_canonicalize_raise; [exact Hc |]. rewrite Ec. apply Hko, Hnot.
Qed.



Lemma canonical_layout_rank4 (image : Tensor) (d0 d1 d2 d3 : nat) :
  shape image = [d0; d1; d2; d3] ->
  canonical_layout image = channel_first image.
Proof.
  intros Hs. unfold canonical_layout.
  rewrite add_batch_dim_other by (unfold rank; rewrite Hs; simpl; lia).
  cbn [rbind ok]. unfold check_rank, rank. rewrite Hs. reflexivity.
Qed.

(** C7. Let the image have rank 4 and the call pass the check of line 65.
    If the last dimension is not 3, canonicalisation permutes nothing: its
    layout part returns the image itself, and whatever canonicalisation
    returns and [forward] hands to the transform has the image's shape and
    is the image or its quotient by 255. If the last dimension is 3, the
    layout part returns the tensor of shape (d0, 3, d1, d2) whose element
    at [b, c, h, w] is the image's element at [b, h, w, c], and whatever
    canonicalisation returns and [forward] hands to the transform has that
    shape and is that tensor or its quotient by 255. *)
Theorem canonicalize_layout {D : Dtype} (preprocess : Tensor -> result Tensor)
    (self : FilmEfficientNetEncoder) (image : Tensor) (context : option Tensor)
    (d0 d1 d2 d3 : nat) :
  shape image = [d0; d1; d2; d3] -> check_passes self context ->
  (d3 <> 3 ->
     canonical_layout image = ok image /\
     canonicalize image = normalize_range image /\
     forall out, canonicalize image = ok out ->
       shape out = [d0; d1; d2; d3] /\
       (out = image \/ out = div_scalar image 255) /\
       exists l, fst (forward preprocess self image context) = CallPreprocess out :: l) /\
  (d3 = 3 ->
     exists image',
       canonical_layout image = ok image' /\
       shape image' = [d0; 3; d1; d2] /\
       (forall b c h w, b < d0 -> c < 3 -> h < d1 -> w < d2 ->
          get4 image' b c h w = get4 image b h w c) /\
       canonicalize image = normalize_range image' /\
       forall out, canonicalize image = ok out ->
         shape out = [d0; 3; d1; d2] /\
         (out = image' \/ out = div_scalar image' 255) /\
         exists l, fst (forward preprocess self image context) = CallPreprocess out :: l).
Proof.
  intros Hs Hc.
  pose proof (canonical_layout_rank4 image d0 d1 d2 d3 Hs) as El.
  destruct (channel_first_layout image d0 d1 d2 d3 Hs) as [Hno Hyes].
  split.
  - intros Hd. rewrite (Hno Hd) in El.
    assert (Ec : canonicalize image = normalize_range image).
    { rewrite canonicalize_split, El. reflexivity. }
    split; [exact El |]. split; [exact Ec |].
    intros out Ho. pose proof Ho as Ho'. rewrite Ec in Ho'.
    destruct (normalize_range_ok_cases image out Ho') as [Hso Hcase].
    split; [rewrite Hso; exact Hs |]. split; [exact Hcase |].
    apply forward_hands_over; assumption.
  - intros Hd. destruct (Hyes Hd) as [image' [E' [S' [_ G]]]].
    rewrite E' in El.
    assert (Ec : canonicalize image = normalize_range image').
    { rewrite canonicalize_split, El. reflexivity. }
    exists image'. split; [exact El |]. split; [exact S' |]. split; [exact G |].
    split; [exact Ec |].
    intros out Ho. pose proof Ho as Ho'. rewrite Ec in Ho'.
    destruct (normalize_range_ok_cases image' out Ho') as [Hso Hcase].
    split; [rewrite Hso; exact S' |]. split; [exact Hcase |].
    apply forward_hands_over; assumption.
Qed.

(** C10. Whether canonicalisation permutes a rank-4 image depends on its
    last dimension alone: what it returns, and [forward] hands to the
    transform, has shape (d0, 3, d1, d2) when d3 = 3 and the image's shape
    otherwise, whatever d1 is. So an image whose last dimension is 3 is
    always permuted: the element at [b, c, h, w] of the image sits at
    [b, w, c, h] of the result, axis 1 of the result running over the
    image's last axis. For a channel-first image of width 3 and height
    other than 3 the shape has changed; and nothing signals it: when its
    values lie in [0, 1), canonicalisation succeeds and the transform gets
    the permuted tensor. *)
Theorem canonicalize_permutes_on_last_axis_alone {D : Dtype}
    (preprocess : Tensor -> result Tensor)
    (self : FilmEfficientNetEncoder) (image : Tensor) (context : option Tensor)
    (d0 d1 d2 d3 : nat) :
  shape image = [d0; d1; d2; d3] -> check_passes self context ->
  (forall out, canonicalize image = ok out ->
     shape out = (if d3 =? 3 then [d0; 3; d1; d2] else [d0; d1; d2; d3]) /\
     exists l, fst (forward preprocess self image context) = CallPreprocess out :: l) /\
  (d3 = 3 ->
     exists image',
       canonical_layout image = ok image' /\
       canonicalize image = normalize_range image' /\
       (forall b c h w, b < d0 -> c < d1 -> h < d2 -> w < 3 ->
          get4 image' b w c h = get4 image b c h w) /\
       (d1 = 3 -> d2 <> 3 -> shape image' <> shape image) /\
       (wf image -> data image <> [] -> Forall below_one (data image) ->
          canonicalize image = ok image' /\
          exists l, fst (forward preprocess self image context)
                    = CallPreprocess image' :: l)).
Proof.
  intros Hs Hc.
  pose proof (canonical_layout_rank4 image d0 d1 d2 d3 Hs) as El.
  destruct (channel_first_layout image d0 d1 d2 d3 Hs) as [Hno Hyes].
  split.
  - intros out Ho. split; [| apply forward_hands_over; assumption].
    rewrite canonicalize_split, El in Ho.
    destruct (d3 =? 3) eqn:E3.
    + apply Nat.eqb_eq in E3. destruct (Hyes E3) as [image' [E' [S' _]]].
      rewrite E' in Ho. cbn [rbind ok] in Ho.
      destruct (normalize_range_ok_cases image' out Ho) as [Hso _].
      rewrite Hso. exact S'.
    + apply Nat.eqb_neq in E3. rewrite (Hno E3) in Ho. cbn [rbind ok] in Ho.
      destruct (normalize_range_ok_cases image out Ho) as [Hso _].
      rewrite Hso. exact Hs.
  - intros Hd. destruct (Hyes Hd) as [image' [E' [S' [L' G]]]].
    rewrite E' in El.
    assert (Ec : canonicalize image = normalize_range image').
    { rewrite canonicalize_split, El. reflexivity. }
    exists image'. split; [exact El |]. split; [exact Ec |].
    split; [intros b c h w Hb Hc' Hh Hw; apply G; assumption |].
    split.
    + intros H1 H2 E. rewrite S', Hs in E. inversion E. subst. congruence.
    + intros Hwf Hne Hall. subst d3.
      assert (R : rank image = 4) by (unfold rank; rewrite Hs; reflexivity).
      destruct (channel_first_ok image R) as [i2 [E2 [_ H2]]].
      rewrite E' in E2. inversion E2. subst i2. clear E2.
      destruct (H2 Hwf) as [_ [Hlen Hin]].
      assert (Hne' : data image' <> []).
      { intros E. rewrite E in Hlen. destruct (data image); [congruence | discriminate]. }
      assert (Hall' : Forall below_one (data image')).
      { apply (Forall_In_equiv _ _ _ Hin), Hall. }
      destruct (normalize_range_unit image' Hne' Hall') as [_ En].
      split; [rewrite Ec; exact En |].
      apply forward_hands_over; [exact Hc | rewrite Ec; exact En].
Qed.

(* ================================================================= *)
(** ** Canonicalisation on concrete images *)

Lemma forward_rescales_raw_image_witness :
  exists laid,
    canonical_layout Examples.raw_nhwc = ok laid /\
    data (div_scalar laid 255) = map (fun x => fl (x / 255)%Q) (data laid) /\
    (Forall in_unit (data (div_scalar laid 255)) ->
       canonicalize Examples.raw_nhwc = ok (div_scalar laid 255) /\
       (exists m, torch_max (div_scalar laid 255) = ok m /\ (m <= 1)%Q) /\
       exists l, fst (forward Examples.toy_preprocess (Examples.toy_encoder 4 false false)
                        Examples.raw_nhwc None)
                 = CallPreprocess (div_scalar laid 255) :: l) /\
    (~ Forall in_unit (data (div_scalar laid 255)) ->
       canonicalize Examples.raw_nhwc = raise RangeError /\
       forward Examples.toy_preprocess (Examples.toy_encoder 4 false false)
         Examples.raw_nhwc None = ([], raise RangeError)).
Proof.
  apply (forward_rescales_raw_image (D := exact_arithmetic) Examples.toy_preprocess
           (Examples.toy_encoder 4 false false) Examples.raw_nhwc None).
  - reflexivity.
  - right. reflexivity.
  - exists 51%Q. split; [simpl; tauto | discriminate].
  - reflexivity.
Defined.


(** The rank-3 channel-last image with values below 1 reaches the
    transform with a batch dimension, its channels in front and its values
    as they were. *)
Example unit_image_run :
  canonicalize Examples.unit_hwc
  = ok {| shape := [1; 3; 1; 2];
          data := [1 # 2; 1 # 8;  1 # 4; 0;  3 # 4; 1 # 3]%Q |} /\
  fst (forward Examples.toy_preprocess (Examples.toy_encoder 4 false false)
         Examples.unit_hwc None)
  = [CallPreprocess {| shape := [1; 3; 1; 2];
                       data := [1 # 2; 1 # 8;  1 # 4; 0;  3 # 4; 1 # 3]%Q |};
     CallNet {| shape := [1; 3; 1; 2];
                data := [1 # 2; 1 # 8;  1 # 4; 0;  3 # 4; 1 # 3]%Q |} None].
Proof. split; reflexivity. Qed.

Lemma canonicalize_layout_witness :
  (canonical_layout Examples.white_nchw = ok Examples.white_nchw /\
   canonicalize Examples.white_nchw = normalize_range Examples.white_nchw) /\
  (exists image',
     canonical_layout Examples.raw_nhwc = ok image' /\
     shape image' = [1; 3; 2; 2] /\
     (forall b c h w, b < 1 -> c < 3 -> h < 2 -> w < 2 ->
        get4 image' b c h w = get4 Examples.raw_nhwc b h w c) /\
     canonicalize Examples.raw_nhwc = normalize_range image').
Proof.
  split.
  - destruct (proj1 (canonicalize_layout (D := exact_arithmetic) Examples.toy_preprocess
                       (Examples.toy_encoder 4 false false) Examples.white_nchw None
                       1 3 2 2 eq_refl eq_refl))
      as [El [Ec _]]; [discriminate |].
    split; [exact El | exact Ec].
  - destruct (proj2 (canonicalize_layout (D := exact_arithmetic) Examples.toy_preprocess
                       (Examples.toy_encoder 4 false false) Examples.raw_nhwc None
                       1 2 2 3 eq_refl eq_refl) eq_refl)
      as [image' [El [S' [G [Ec _]]]]].
    exists image'. split; [exact El |]. split; [exact S' |]. split; [exact G | exact Ec].
Defined.

Lemma canonicalize_permutes_on_last_axis_alone_witness :
  exists image',
    canonical_layout Examples.narrow_nchw = ok image' /\
    (forall b c h w, b < 1 -> c < 3 -> h < 2 -> w < 3 ->
       get4 image' b w c h = get4 Examples.narrow_nchw b c h w) /\
    shape image' <> shape Examples.narrow_nchw /\
    canonicalize Examples.narrow_nchw = ok image' /\
    exists l, fst (forward Examples.toy_preprocess (Examples.toy_encoder 4 false false)
                     Examples.narrow_nchw None) = CallPreprocess image' :: l.
Proof.
  destruct (proj2 (canonicalize_permutes_on_last_axis_alone (D := exact_arithmetic)
                     Examples.toy_preprocess (Examples.toy_encoder 4 false false)
                     Examples.narrow_nchw None 1 3 2 3 eq_refl eq_refl) eq_refl)
    as [image' [El [_ [G [Hsh Hrun]]]]].
  exists image'. split; [exact El |]. split; [exact G |].
  split; [apply Hsh; [reflexivity | discriminate] |].
  apply Hrun.
  - reflexivity.
  - discriminate.
  - repeat constructor; discriminate.
Defined.

(** Rounding at work. The image holds -2^-149 and 255. The exact quotient
    of the first is negative, so with exact arithmetic the range assertion
    fails; on the grid of step 2^-149 the quotient rounds to 0 and the
    image is accepted. *)
Example tiny_negative_pixel :
  canonicalize (D := exact_arithmetic)
    {| shape := [1; 1; 1; 2]; data := [-1 # 2 ^ 149; 255]%Q |} = raise RangeError /\
  exists out,
    canonicalize (D := subnormal_grid)
      {| shape := [1; 1; 1; 2]; data := [-1 # 2 ^ 149; 255]%Q |} = ok out /\
    Forall (fun x => (x == 0 \/ x == 1)%Q) (data out).
Proof.
  split; [vm_compute; reflexivity |].
  eexists. split; [vm_compute; reflexivity |].
  constructor; [left; vm_compute; reflexivity |].
  constructor; [right; vm_compute; reflexivity | constructor].
Qed.
